(** * jurigged: hot-restart wrapper, stack reviver and file watcher

    A shallow embedding of [jurigged/hot_restart_utils.py] and of the
    watcher part of [jurigged/live.py].  Python objects that are linked or
    mutated (traceback objects, callables, classes, timers) live in explicit
    stores; effectful code is written in a small state-and-exception monad
    over a [world] holding those stores and an ordered log of the calls made
    to external collaborators.  Calls of [log.debug] and [log.warn] have no
    effect on what is modelled and are left out. *)

From stdpp Require Import base numbers strings option list.

Set Warnings "-register-all".

(** ** Python values shared by all parts *)

(** A store address: the index of an object in its store. *)
Abbreviation addr := nat.

(** Code objects.  Python compares [f_code] and [__code__] with [==]; a code
    object is represented by a number and compared by equality. *)
Abbreviation code := nat.

(** An exception class is named; an exception value carries the classes it
    is an instance of (its class and all its bases) and an identity. *)
Definition exc_class := string.

Record exn := Exn {
  exn_classes : list exc_class;
  exn_ident : nat
}.

#[global] Instance exn_eq_dec : EqDecision exn.
Proof. solve_decision. Defined.

(** [isinstance(e, cls)] for one class and for a tuple of classes. *)
Definition isinstance (e : exn) (cls : exc_class) : bool :=
  bool_decide (cls ∈ exn_classes e).

Definition isinstance_any (e : exn) (clss : list exc_class) : bool :=
  existsb (isinstance e) clss.

(** Exceptions raised by the interpreter itself. *)
Definition NameError : exn :=
  Exn ["NameError"; "Exception"; "BaseException"] 0.
Definition AttributeError : exn :=
  Exn ["AttributeError"; "Exception"; "BaseException"] 0.
Definition ImportError : exn :=
  Exn ["ImportError"; "Exception"; "BaseException"] 0.
Definition ValueError : exn :=
  Exn ["ValueError"; "Exception"; "BaseException"] 0.
Definition RuntimeError : exn :=
  Exn ["RuntimeError"; "Exception"; "BaseException"] 0.

(** [StopIteration] derives from [Exception]: an exception is one only
    with both among its classes. *)
Definition is_StopIteration (e : exn) : bool :=
  isinstance e "StopIteration" && isinstance e "Exception".

(** Frames of the running thread: immutable as far as this code is
    concerned, linked to their caller through [f_back]. *)
Inductive frame := Frame {
  f_code : code;
  f_lasti : Z;
  f_lineno : Z;
  f_back : option frame
}.

(** [frame_chain fr]: [fr] followed by its callers, innermost first. *)
Fixpoint frame_chain (fr : frame) : list frame :=
  match fr with
  | Frame _ _ _ back =>
      fr :: match back with
            | None => []
            | Some p => frame_chain p
            end
  end.

Definition frame_chain_opt (fr : option frame) : list frame :=
  match fr with
  | None => []
  | Some f => frame_chain f
  end.

(** Traceback objects are heap objects linked through [tb_next]. *)
Record traceback := Traceback {
  tb_next : option addr;
  tb_frame : frame;
  tb_lasti : Z;
  tb_lineno : Z
}.

(** The store of traceback objects; [types.TracebackType(...)] allocates at
    the end. *)
Abbreviation tb_heap := (list traceback).

(** [tb_chain h tb l]: following [tb_next] from [tb] in [h] visits exactly
    the traceback objects [l], outermost first, and ends at [None]. *)
Inductive tb_chain (h : tb_heap) : option addr -> list traceback -> Prop :=
| tb_chain_nil : tb_chain h None []
| tb_chain_cons a t l :
    h !! a = Some t ->
    tb_chain h (tb_next t) l ->
    tb_chain h (Some a) (t :: l).

(** ** StackReviver: [_create_undead_traceback] *)

Module StackReviver.

(** The first loop:
[[
    while dead_tb is not None and dead_tb.tb_next is not None:
        num_dead_frames += 1
        dead_tb = dead_tb.tb_next
]]
    [None] is returned only when the fuel runs out or a link dangles. *)
Fixpoint dead_loop (h : tb_heap) (fuel : nat) (dead_tb : option addr)
    (num_dead_frames : Z) : option (Z * option addr) :=
  match fuel with
  | O => None
  | S fuel' =>
      match dead_tb with
      | None => Some (num_dead_frames, None)
      | Some a =>
          match h !! a with
          | None => None
          | Some t =>
              match tb_next t with
              | None => Some (num_dead_frames, Some a)
              | Some _ =>
                  dead_loop h fuel' (tb_next t) (num_dead_frames + 1)%Z
              end
          end
      end
  end.

(** The second loop:
[[
    while frame:
        if frame.f_code != wrapper_function.__code__:
            prev_tb = types.TracebackType(tb_next=prev_tb, tb_frame=frame,
                        tb_lasti=frame.f_lasti, tb_lineno=frame.f_lineno)
        frame = frame.f_back
]] *)
Fixpoint live_loop (fr : frame) (wrapper_code : code) (h : tb_heap)
    (prev_tb : option addr) {struct fr} : tb_heap * option addr :=
  match fr with
  | Frame c lasti lineno back =>
      let '(h', prev_tb') :=
        if decide (c <> wrapper_code)
        then (h ++ [Traceback prev_tb fr lasti lineno], Some (length h))
        else (h, prev_tb) in
      match back with
      | None => (h', prev_tb')
      | Some p => live_loop p wrapper_code h' prev_tb'
      end
  end.

Definition live_loop_opt (fr : option frame) (wrapper_code : code)
    (h : tb_heap) (prev_tb : option addr) : tb_heap * option addr :=
  match fr with
  | None => (h, prev_tb)
  | Some f => live_loop f wrapper_code h prev_tb
  end.

(** [_create_undead_traceback(exc_tb, current_frame, wrapper_function)];
    [wrapper_code] is [wrapper_function.__code__].  Returns the new heap,
    [prev_tb] and [num_dead_frames]. *)
Definition _create_undead_traceback (h : tb_heap) (exc_tb : option addr)
    (current_frame : option frame) (wrapper_code : code)
    : option (tb_heap * option addr * Z) :=
  match dead_loop h (S (length h)) exc_tb (-1)%Z with
  | None => None
  | Some (n, dead_tb) =>
      let n := Z.max 0 n in
      let n :=
        match dead_tb with
        | Some a =>
            match h !! a with
            | Some t =>
                if decide (f_code (tb_frame t) = wrapper_code)
                then (n + 1)%Z else n
            | None => n
            end
        | None => n
        end in
      let '(h', prev_tb) := live_loop_opt current_frame wrapper_code h exc_tb in
      Some (h', prev_tb, n)
  end.

End StackReviver.

(** ** Objects, the world and the effect monad *)

(** Values that are passed around or stored in attribute dictionaries. *)
Inductive value :=
| VNone
| VBool (b : bool)
| VInt (z : Z)
| VStr (s : string)
| VRef (o : addr).

#[global] Instance value_eq_dec : EqDecision value.
Proof. solve_decision. Defined.

(** Python truthiness, as used by [getattr(v, marker, False)] in a test. *)
Definition truthy (v : value) : bool :=
  match v with
  | VNone => false
  | VBool b => b
  | VInt z => negb (z =? 0)%Z
  | VStr s => negb (String.eqb s EmptyString)
  | VRef _ => true
  end.

(** What kind of object a store cell holds.  Functions carry their code
    object; a [functools.partial] of [hot_restart_wrap] carries the keyword
    arguments it was built with. *)
Inductive obj_kind :=
| KClass
| KFunction (c : code)
| KCoroutineFunction (c : code)
| KPartial (propagated_exceptions : list exc_class)
           (propagate_keyboard_interrupt : bool)
| KOther (is_callable : bool).

(** The closure of a wrapper built by [hot_restart_wrap]: the free variables
    of [wrapped] and [wrapped_async].  [cl_wrapped_async] is the cell of the
    enclosing function's local variable [wrapped_async]: [None] while that
    variable is unbound. *)
Record closure := Closure {
  cl_func : addr;
  cl_propagated_exceptions : list exc_class;
  cl_propagate_keyboard_interrupt : bool;
  cl_module_file_path : option string;
  cl_wrapped_async : option addr
}.

(** What [inspect] reports about the module of an object:
    [inspect.getmodule] finds none and returns [None]; or it finds a module
    for which [inspect.getfile] raises [TypeError] (a built-in module has
    no file); or it finds a module with a file. *)
Inductive module_info :=
| NoModule
| ModuleWithoutFile
| ModuleFile (path : string).

#[global] Instance module_info_eq_dec : EqDecision module_info.
Proof. solve_decision. Defined.

Definition module_file (m : module_info) : option string :=
  match m with
  | ModuleFile path => Some path
  | _ => None
  end.

(** A [functools.partial] object is an instance of a class of the standard
    library's [functools] module. *)
Definition functools_module : module_info := ModuleFile "functools.py".

(** A heap object: its kind, its [__dict__] (for a class, [vars(cls)]) in
    insertion order, its module as [inspect] reports it, and its closure
    if it is a wrapper. *)
Record pyobj := PyObj {
  ob_kind : obj_kind;
  ob_dict : list (string * value);
  ob_module : module_info;
  ob_closure : option closure
}.

(** What a registry logger is handed. *)
Inductive log_payload :=
| LogExc (e : exn)
| LogMsg (msg : string) (path : option string).

(** Calls to collaborators outside this code, in the order they happen. *)
Inductive event :=
| EvCall (func : addr) (attempt : nat)
| EvBreakpoint
| EvStderr (func_path : option string)
| EvPdbInteraction (tb : option addr)
| EvPudbPostMortem (e : exn) (tb : option addr)
| EvPydevdTracing (delta : Z)
| EvPydevdStop (e : exn) (tb : option addr)
| EvRegistryLog (p : log_payload)
| EvExternal (tag : nat).

#[global] Instance log_payload_eq_dec : EqDecision log_payload.
Proof. solve_decision. Defined.
#[global] Instance event_eq_dec : EqDecision event.
Proof. solve_decision. Defined.

(** The mutable state of the process that this code touches. *)
Record world := World {
  w_objects : list pyobj;
  w_tb_heap : tb_heap;
  w_events : list event;
  w_EXIT_THIS_FRAME : bool
}.

Inductive result (A : Type) :=
| Ok (a : A)
| Raise (e : exn).
Arguments Ok {A} a.
Arguments Raise {A} e.

(** State and exceptions; [None] is a computation that does not finish
    (fuel exhausted) or follows a dangling reference. *)
Definition M (A : Type) : Type := world -> option (result A * world).

Definition ret {A} (a : A) : M A := fun w => Some (Ok a, w).
Definition raise {A} (e : exn) : M A := fun w => Some (Raise e, w).
Definition stuck {A} : M A := fun _ => None.

Definition bind {A B} (m : M A) (k : A -> M B) : M B :=
  fun w =>
    match m w with
    | None => None
    | Some (Ok a, w') => k a w'
    | Some (Raise e, w') => Some (Raise e, w')
    end.

Declare Scope py_scope.
Delimit Scope py_scope with py.
Notation "x <- m ;; k" := (bind m (fun x => k))
  (at level 100, m at next level, k at level 200, right associativity)
  : py_scope.
Notation "m ;; k" := (bind m (fun _ => k))
  (at level 100, k at level 200, right associativity) : py_scope.
Local Open Scope py_scope.

(** [try: m  except <classes matching handles>: h e]. *)
Definition try_except {A} (m : M A) (handles : exn -> bool)
    (h : exn -> M A) : M A :=
  fun w =>
    match m w with
    | Some (Raise e, w') => if handles e then h e w' else Some (Raise e, w')
    | r => r
    end.

(** [try: m  finally: f]. *)
Definition try_finally {A} (m : M A) (f : M unit) : M A :=
  fun w =>
    match m w with
    | None => None
    | Some (r, w') =>
        match f w' with
        | None => None
        | Some (Ok _, w'') => Some (r, w'')
        | Some (Raise e, w'') => Some (Raise e, w'')
        end
    end.

Definition emit_event (ev : event) : M unit :=
  fun w => Some (Ok tt, World (w_objects w) (w_tb_heap w)
                              (w_events w ++ [ev]) (w_EXIT_THIS_FRAME w)).

Definition get_objects : M (list pyobj) := fun w => Some (Ok (w_objects w), w).

Definition put_objects (st : list pyobj) : M unit :=
  fun w => Some (Ok tt, World st (w_tb_heap w) (w_events w)
                              (w_EXIT_THIS_FRAME w)).

Definition set_EXIT_THIS_FRAME (b : bool) : M unit :=
  fun w => Some (Ok tt, World (w_objects w) (w_tb_heap w) (w_events w) b).

Definition get_EXIT_THIS_FRAME : M bool :=
  fun w => Some (Ok (w_EXIT_THIS_FRAME w), w).

(** A reference that is followed must point to an object. *)
Definition deref (a : addr) : M pyobj :=
  fun w =>
    match w_objects w !! a with
    | Some o => Some (Ok o, w)
    | None => None
    end.

(** Allocation of a new object at the end of the store. *)
Definition alloc (o : pyobj) : M addr :=
  fun w => Some (Ok (length (w_objects w)),
                 World (w_objects w ++ [o]) (w_tb_heap w) (w_events w)
                       (w_EXIT_THIS_FRAME w)).

(** Dictionaries in insertion order: assignment to an existing key keeps
    its position, a new key goes last. *)
Fixpoint dict_get (d : list (string * value)) (k : string) : option value :=
  match d with
  | [] => None
  | (k', v) :: d' => if String.eqb k' k then Some v else dict_get d' k
  end.

Fixpoint dict_set (d : list (string * value)) (k : string) (v : value)
    : list (string * value) :=
  match d with
  | [] => [(k, v)]
  | (k', v') :: d' =>
      if String.eqb k' k then (k, v) :: d' else (k', v') :: dict_set d' k v
  end.

(** [dict.update]. *)
Definition dict_update (d other : list (string * value))
    : list (string * value) :=
  fold_left (fun acc kv => dict_set acc (fst kv) (snd kv)) other d.

(** [getattr(obj, name, default)] on the object's own dictionary. *)
Definition getattr (a : addr) (name : string) (default : value) : M value :=
  o <- deref a ;;
  ret (match dict_get (ob_dict o) name with
       | Some v => v
       | None => default
       end).

(** [setattr(obj, name, v)]. *)
Definition setattr (a : addr) (name : string) (v : value) : M unit :=
  o <- deref a ;;
  st <- get_objects ;;
  put_objects (<[a := PyObj (ob_kind o) (dict_set (ob_dict o) name v)
                         (ob_module o) (ob_closure o)]> st).

Definition callable_kind (k : obj_kind) : bool :=
  match k with
  | KClass | KFunction _ | KCoroutineFunction _ | KPartial _ _ => true
  | KOther c => c
  end.

(** [callable(v)], for a value found in a dictionary. *)
Definition callable (v : value) : M bool :=
  match v with
  | VRef a => o <- deref a ;; ret (callable_kind (ob_kind o))
  | _ => ret false
  end.

(** [inspect.isclass(func)]. *)
Definition isclass (func : option addr) : M bool :=
  match func with
  | None => ret false
  | Some a =>
      o <- deref a ;;
      ret (match ob_kind o with KClass => true | _ => false end)
  end.

(** [inspect.iscoroutinefunction(func)]. *)
Definition iscoroutinefunction (a : addr) : M bool :=
  o <- deref a ;;
  ret (match ob_kind o with KCoroutineFunction _ => true | _ => false end).

(** ** DebuggerBackend: [_start_post_mortem] and the three backends *)

Module Debugger.

(** What the dispatch depends on outside this code: the module constant
    [DEBUGGER], whether [import name] succeeds at the time of the call, and
    whether [pydevd.get_global_debugger()] returns a debugger. *)
Record env := Env {
  DEBUGGER : string;
  importable : string -> bool;
  pydevd_global_debugger : bool
}.

(** The module-level selection of [DEBUGGER] from [sys.modules]. *)
Definition select_debugger (in_sys_modules : string -> bool) : string :=
  if in_sys_modules "pydevd" then "pydevd"
  else if in_sys_modules "pudb" then "pudb"
  else "pdb".

Definition ModuleNotFoundError : exn :=
  Exn ["ModuleNotFoundError"; "ImportError"; "Exception"; "BaseException"] 0.

(** An [import name] statement inside a function body. *)
Definition import_module (E : env) (name : string) : M unit :=
  if importable E name then ret tt else raise ModuleNotFoundError.

Definition breakpoint : M unit := emit_event EvBreakpoint.

(** [excinfo] is [(type, value, traceback)]; the type is the value's. *)
Definition excinfo : Type := exn * option addr.

Definition _start_pdb_post_mortem (E : env) (func_path : option string)
    (ei : excinfo) (num_dead_frames : Z) : M unit :=
  import_module E "pdb" ;;
  emit_event (EvPdbInteraction (snd ei)).

Definition _start_pudb_post_mortem (E : env) (func_path : option string)
    (ei : excinfo) : M unit :=
  import_module E "pudb" ;;
  emit_event (EvPudbPostMortem (fst ei) (snd ei)).

Definition _start_pydevd_post_mortem (E : env) (func_path : option string)
    (ei : excinfo) : M unit :=
  emit_event (EvStderr func_path) ;;
  imported <- try_except (import_module E "pydevd" ;; ret true)
                (fun e => isinstance e "ImportError")
                (fun _ => breakpoint ;; ret false) ;;
  if negb imported then ret tt
  else if negb (pydevd_global_debugger E) then breakpoint
  else
    emit_event (EvPydevdTracing 1%Z) ;;
    try_finally (emit_event (EvPydevdStop (fst ei) (snd ei)))
                (emit_event (EvPydevdTracing (-1)%Z)).

Definition _start_post_mortem (E : env) (func_path : option string)
    (ei : excinfo) (num_dead_frames : Z) : M unit :=
  if String.eqb (DEBUGGER E) "pdb"
  then _start_pdb_post_mortem E func_path ei num_dead_frames
  else if String.eqb (DEBUGGER E) "pydevd"
  then _start_pydevd_post_mortem E func_path ei
  else if String.eqb (DEBUGGER E) "pudb"
  then _start_pudb_post_mortem E func_path ei
  else breakpoint.

End Debugger.

(** ** EventSource and Watcher.refresh *)

(** The registry's entry for a path ([cf]): what its [refresh()] does. *)
Record target := Target {
  target_id : nat;
  target_refresh : M unit
}.

Module EventSource.

(** Modelled from the spec: [EventSource] of [jurigged/utils.py], which is
    not among the sources.  An ordered list of subscribers; [emit] calls
    each in registration order and an exception from a subscriber
    propagates to the caller of [emit]. *)
Definition subscriber : Type := option string -> target -> M unit.
Definition t : Type := list subscriber.

Definition subscribe (self : t) (fn : subscriber) : t := self ++ [fn].

Fixpoint emit (self : t) (path : option string) (cf : target) : M unit :=
  match self with
  | [] => ret tt
  | fn :: rest => fn path cf ;; emit rest path cf
  end.

End EventSource.

Module Watcher.

(** The registry collaborator: [get] and the logger sink [log]. *)
Record Registry := {
  registry_get : option string -> option target
}.

Definition registry_log (p : log_payload) : M unit :=
  emit_event (EvRegistryLog p).

(** The fields of a [Watcher] that the modelled code reads.  [debounce] is
    [None] for [None]/[False] and [Some d] for a number. *)
Record t := {
  registry : Registry;
  debounce : option Z;
  prerun : EventSource.t;
  postrun : EventSource.t
}.

Definition is_Exception (e : exn) : bool := isinstance e "Exception".

(** [Watcher.refresh(self, path)]. *)
Definition refresh (self : t) (path : option string) : M unit :=
  match registry_get (registry self) path with
  | Some cf =>
      try_except
        (EventSource.emit (prerun self) path cf ;;
         target_refresh cf ;;
         EventSource.emit (postrun self) path cf)
        is_Exception
        (fun exc => registry_log (LogExc exc))
  | None =>
      registry_log (LogMsg "Could not find {path} in registry" path)
  end.

End Watcher.

(** ** JuriggedHandler: debounced refresh on file events *)

Module JuriggedHandler.

(** A [threading.Timer] after [start()]: it waits for its interval, then
    runs its function on its own thread.  [cancel()] only has an effect
    while the timer is still waiting. *)
Inductive timer_state := Waiting | Cancelled | Running | Finished.

#[global] Instance timer_state_eq_dec : EqDecision timer_state.
Proof. solve_decision. Defined.

Record timer_obj := TimerObj {
  interval : Z;
  state : timer_state
}.

(** The handler's fields, the store of timer objects, and the paths that
    [watcher.refresh] was called with, in order. *)
Record t := Handler {
  watcher_debounce : option Z;
  filename : string;
  normalized_filename : string;
  mtime : Z;
  timer : option addr;
  timers : list timer_obj;
  refreshed : list string
}.

(** [JuriggedHandler.__init__]; [normpath] is [os.path.normpath]. *)
Definition init (normpath : string -> string) (debounce : option Z)
    (fname : string) : t :=
  Handler debounce fname (normpath fname) 0%Z None [] [].

(** Truthiness of [self.watcher.debounce]. *)
Definition debounce_set (d : option Z) : bool :=
  match d with
  | Some z => negb (z =? 0)%Z
  | None => false
  end.

Definition timer_cancel (a : addr) (ts : list timer_obj) : list timer_obj :=
  match ts !! a with
  | Some (TimerObj i Waiting) => <[a := TimerObj i Cancelled]> ts
  | _ => ts
  end.

(** The two statements of [_refresh]:
[[
    self.watcher.refresh(self.filename)
    self.timer = None
]] *)
Definition _refresh_call (self : t) : t :=
  Handler (watcher_debounce self) (filename self) (normalized_filename self)
          (mtime self) (timer self) (timers self)
          (refreshed self ++ [filename self]).

Definition _refresh_clear (self : t) : t :=
  Handler (watcher_debounce self) (filename self) (normalized_filename self)
          (mtime self) None (timers self) (refreshed self).

Definition _refresh (self : t) : t := _refresh_clear (_refresh_call self).

(** [on_modified(self, event)], also bound to [on_created];
    [getmtime] is the value of [os.path.getmtime(event.src_path)]. *)
Definition on_modified (self : t) (src_path : string) (getmtime : Z) : t :=
  if String.eqb src_path (normalized_filename self) then
    if negb (getmtime =? mtime self)%Z then
      let self1 :=
        Handler (watcher_debounce self) (filename self)
                (normalized_filename self) getmtime (timer self)
                (timers self) (refreshed self) in
      if debounce_set (watcher_debounce self1) then
        let ts :=
          match timer self1 with
          | Some a => timer_cancel a (timers self1)
          | None => timers self1
          end in
        let d := default 0%Z (watcher_debounce self1) in
        Handler (watcher_debounce self1) (filename self1)
                (normalized_filename self1) (mtime self1)
                (Some (length ts)) (ts ++ [TimerObj d Waiting])
                (refreshed self1)
      else _refresh self1
    else self
  else self.

(** What can happen to a handler: the observer thread delivers an event;
    a waiting timer's interval elapses and its thread starts [_refresh]
    (the call of [watcher.refresh]); that thread finishes [_refresh]. *)
Inductive step :=
| Modified (src_path : string) (getmtime : Z)
| TimerFires (a : addr)
| TimerReturns (a : addr).

Definition set_timer_state (a : addr) (s : timer_state) (self : t) : t :=
  Handler (watcher_debounce self) (filename self) (normalized_filename self)
          (mtime self) (timer self)
          (alter (fun x => TimerObj (interval x) s) a (timers self))
          (refreshed self).

Definition timer_state_at (self : t) (a : addr) : option timer_state :=
  state <$> timers self !! a.

(** One step; a step that is not enabled leaves the handler as it is. *)
Definition do_step (self : t) (s : step) : t :=
  match s with
  | Modified p m => on_modified self p m
  | TimerFires a =>
      match timer_state_at self a with
      | Some Waiting => _refresh_call (set_timer_state a Running self)
      | _ => self
      end
  | TimerReturns a =>
      match timer_state_at self a with
      | Some Running => set_timer_state a Finished (_refresh_clear self)
      | _ => self
      end
  end.

Definition run (self : t) (sched : list step) : t :=
  fold_left do_step sched self.

(** The timers that are scheduled and have neither fired nor been
    cancelled. *)
Definition pending (self : t) : list addr :=
  filter (fun a => timer_state_at self a = Some Waiting)
         (seq 0 (length (timers self))).

End JuriggedHandler.

(** ** HotRestartWrapper: [hot_restart_wrap], [hot_restart_wrap_class]
       and the two wrappers *)

Module HotRestart.

Definition HOT_RESTART_ALREADY_WRAPPED : string := "_hot_restart_already_wrapped".
Definition HOT_RESTART_NO_WRAP : string := "_hot_restart_no_wrap".

(** The code objects of the nested functions [wrapped] and
    [wrapped_async]: constants of [hot_restart_wrap]'s own code, shared by
    every wrapper it creates. *)
Definition wrapped_code : code := 0.
Definition wrapped_async_code : code := 1.

(** The defaults of the keyword arguments. *)
Definition default_propagated_exceptions : list exc_class := ["StopIteration"].
Definition default_propagate_keyboard_interrupt : bool := true.

(** [get_module_file_path(func)]: the absolute file of the callable's
    module.  When [inspect.getmodule(func)] is [None],
    [inspect.getfile(None)] raises [TypeError] and the handler's message
    reads [module.__name__] on [None]: the [AttributeError] leaves the
    function.  When the module has no file the handler only logs and
    [None] is returned. *)
Definition get_module_file_path (func : addr) : M (option string) :=
  o <- deref func ;;
  match ob_module o with
  | NoModule => raise AttributeError
  | ModuleWithoutFile => ret None
  | ModuleFile path => ret (Some path)
  end.

(** The [__dict__] that [functools.wraps(func)] leaves on the wrapper:
    [func.__dict__] merged in, then [__wrapped__]. *)
Definition wraps_dict (func : addr) (fo : pyobj) : list (string * value) :=
  dict_set (dict_update [] (ob_dict fo)) "__wrapped__" (VRef func).

(** Allocation of an object that may refer to itself. *)
Definition alloc_self (mk : addr -> pyobj) : M addr :=
  st <- get_objects ;; alloc (mk (length st)).

(** [hot_restart_wrap(func, propagated_exceptions=...,
    propagate_keyboard_interrupt=...)].  [propagated_exceptions] is a tuple
    by its type here, so the [assert] holds.  In the coroutine branch the
    local [wrapped_async] is bound to the new function, so the cell both
    closures could share holds it; in the other branch that local is never
    assigned and the cell captured by [wrapped] is empty. *)
Definition hot_restart_wrap (func : option addr)
    (propagated_exceptions : list exc_class)
    (propagate_keyboard_interrupt : bool) : M value :=
  c <- isclass func ;;
  if (c : bool) then raise ValueError
  else
    match func with
    | None =>
        p <- alloc (PyObj (KPartial propagated_exceptions
                                    propagate_keyboard_interrupt)
                          [] functools_module None) ;;
        ret (VRef p)
    | Some f =>
        marked <- getattr f HOT_RESTART_ALREADY_WRAPPED (VBool false) ;;
        if truthy marked then ret (VRef f)
        else
          co <- iscoroutinefunction f ;;
          if (co : bool) then
            module_file_path <- get_module_file_path f ;;
            fo <- deref f ;;
            wrapped_async <-
              alloc_self (fun self =>
                PyObj (KCoroutineFunction wrapped_async_code)
                      (wraps_dict f fo) (ob_module fo)
                      (Some (Closure f propagated_exceptions
                                     propagate_keyboard_interrupt
                                     module_file_path (Some self)))) ;;
            setattr wrapped_async HOT_RESTART_ALREADY_WRAPPED (VBool true) ;;
            ret (VRef wrapped_async)
          else
            module_file_path <- get_module_file_path f ;;
            fo <- deref f ;;
            wrapped <-
              alloc (PyObj (KFunction wrapped_code)
                           (wraps_dict f fo) (ob_module fo)
                           (Some (Closure f propagated_exceptions
                                          propagate_keyboard_interrupt
                                          module_file_path None))) ;;
            setattr wrapped HOT_RESTART_ALREADY_WRAPPED (VBool true) ;;
            ret (VRef wrapped)
    end.

(** The loop of [hot_restart_wrap_class] over the snapshot
    [list(vars(cls).items())]. *)
Fixpoint wrap_items (cls : addr) (items : list (string * value)) : M unit :=
  match items with
  | [] => ret tt
  | (k, v) :: rest =>
      c <- callable v ;;
      (if (c : bool) then
         match v with
         | VRef a =>
             w <- hot_restart_wrap (Some a) default_propagated_exceptions
                    default_propagate_keyboard_interrupt ;;
             setattr cls k w
         | _ => ret tt
         end
       else ret tt) ;;
      wrap_items cls rest
  end.

Definition hot_restart_wrap_class (cls : addr) : M unit :=
  o <- deref cls ;; wrap_items cls (ob_dict o).

(** *** Calling a wrapper *)

(** What one execution of [func(...)] does, as the wrapper's [try] block
    observes it at the call (or, for a coroutine function, at the
    [await]): it returns a value, or raises [e] with traceback [tb]
    ([sys.exc_info()[2]] in the wrapper's handler).  A [StopIteration] that
    leaves the body of a coroutine reaches the [await] as a
    [RuntimeError]; it is that exception which appears here. *)
Inductive outcome :=
| Returns (v : value)
| Raises (e : exn) (tb : option addr).

(** The surroundings of one invocation of a wrapper: what the wrapped
    function does on its k-th attempt, the caller's frame
    [sys._getframe(1)], the process-wide watcher returned by
    [get_watch_instance()] and the debugger environment. *)
Record env := Env {
  behaviour : addr -> nat -> outcome;
  caller_frame : option frame;
  watch_instance : option Watcher.t;
  debugger : Debugger.env
}.

(** [live.get_watch_instance()]. *)
Definition get_watch_instance (E : env) : option Watcher.t := watch_instance E.

(** [func.__code__]. *)
Definition function_code (o : pyobj) : option code :=
  match ob_kind o with
  | KFunction c | KCoroutineFunction c => Some c
  | _ => None
  end.

(** The call [_create_undead_traceback(exc_tb, current_frame,
    wrapper_function)] on the world's traceback heap. *)
Definition create_undead_traceback (exc_tb : option addr)
    (current_frame : option frame) (wrapper_function : addr)
    : M (option addr * Z) :=
  o <- deref wrapper_function ;;
  match function_code o with
  | None => raise AttributeError
  | Some c =>
      fun w =>
        match StackReviver._create_undead_traceback
                (w_tb_heap w) exc_tb current_frame c with
        | None => None
        | Some (h', new_tb, n) =>
            Some (Ok (new_tb, n),
                  World (w_objects w) h' (w_events w) (w_EXIT_THIS_FRAME w))
        end
  end.

(** [watch_instance.refresh(module_file_path)]: an attribute access on
    [None] raises [AttributeError]. *)
Definition watch_instance_refresh (wi : option Watcher.t)
    (module_file_path : option string) : M unit :=
  match wi with
  | None => raise AttributeError
  | Some w => Watcher.refresh w module_file_path
  end.

(** Reading the free variable [wrapped_async]: an empty cell raises
    [NameError]. *)
Definition load_wrapped_async (cl : closure) : M addr :=
  match cl_wrapped_async cl with
  | None => raise NameError
  | Some a => ret a
  end.

(** One pass through the body of [while not EXIT_THIS_FRAME:] in
    [wrapped]; [Some v] is [return result], [None] falls through to
    [restart_count += 1]. *)
Definition wrapped_body (E : env) (cl : closure)
    (wi : option Watcher.t) (restart_count : nat) : M (option value) :=
  emit_event (EvCall (cl_func cl) restart_count) ;;
  match behaviour E (cl_func cl) restart_count with
  | Returns result => ret (Some result)
  | Raises e tb =>
      if negb (isinstance e "Exception") then raise e
      else if isinstance_any e (cl_propagated_exceptions cl) then raise e
      else if cl_propagate_keyboard_interrupt cl
              && isinstance e "KeyboardInterrupt" then raise e
      else
        wrapper_function <- load_wrapped_async cl ;;
        r <- create_undead_traceback tb (caller_frame E) wrapper_function ;;
        Debugger._start_post_mortem (debugger E) (cl_module_file_path cl)
          (e, fst r) (snd r) ;;
        watch_instance_refresh wi (cl_module_file_path cl) ;;
        ret None
  end.

Fixpoint wrapped_loop (E : env) (cl : closure) (wi : option Watcher.t)
    (fuel : nat) (restart_count : nat) : M value :=
  match fuel with
  | O => stuck
  | S fuel' =>
      exit <- get_EXIT_THIS_FRAME ;;
      if (exit : bool) then ret VNone
      else
        r <- wrapped_body E cl wi restart_count ;;
        match r with
        | Some result => ret result
        | None => wrapped_loop E cl wi fuel' (S restart_count)
        end
  end.

(** [wrapped(...)]. *)
Definition wrapped (E : env) (cl : closure) (fuel : nat) : M value :=
  let wi := get_watch_instance E in
  set_EXIT_THIS_FRAME false ;;
  wrapped_loop E cl wi fuel 0.

(** The same for [wrapped_async]; [await func(...)] delivers
    the coroutine's result or exception at the [await]. *)
Definition wrapped_async_body (E : env) (cl : closure)
    (wi : option Watcher.t) (restart_count : nat) : M (option value) :=
  emit_event (EvCall (cl_func cl) restart_count) ;;
  match behaviour E (cl_func cl) restart_count with
  | Returns result => ret (Some result)
  | Raises e tb =>
      if negb (isinstance e "Exception") then raise e
      else if isinstance_any e (cl_propagated_exceptions cl) then raise e
      else if cl_propagate_keyboard_interrupt cl
              && isinstance e "KeyboardInterrupt" then raise e
      else
        wrapper_function <- load_wrapped_async cl ;;
        r <- create_undead_traceback tb (caller_frame E) wrapper_function ;;
        Debugger._start_post_mortem (debugger E) (cl_module_file_path cl)
          (e, fst r) (snd r) ;;
        watch_instance_refresh wi (cl_module_file_path cl) ;;
        ret None
  end.

Fixpoint wrapped_async_loop (E : env) (cl : closure) (wi : option Watcher.t)
    (fuel : nat) (restart_count : nat) : M value :=
  match fuel with
  | O => stuck
  | S fuel' =>
      exit <- get_EXIT_THIS_FRAME ;;
      if (exit : bool) then ret VNone
      else
        r <- wrapped_async_body E cl wi restart_count ;;
        match r with
        | Some result => ret result
        | None => wrapped_async_loop E cl wi fuel' (S restart_count)
        end
  end.

(** The boundary of a coroutine: a [StopIteration] that leaves the body of
    an [async def] reaches whoever awaits it as
    [RuntimeError("coroutine raised StopIteration")]; every other
    exception and every result pass unchanged. *)
Definition coroutine {A} (body : M A) : M A :=
  fun w =>
    match body w with
    | Some (Raise e, w') =>
        Some (Raise (if is_StopIteration e then RuntimeError else e), w')
    | r => r
    end.

(** [wrapped_async(...)], awaited. *)
Definition wrapped_async (E : env) (cl : closure) (fuel : nat) : M value :=
  coroutine
    (let wi := get_watch_instance E in
     set_EXIT_THIS_FRAME false ;;
     wrapped_async_loop E cl wi fuel 0).

(** Calling the object returned by [hot_restart_wrap] (and, for a
    coroutine function, awaiting the coroutine). *)
Definition call_wrapper (E : env) (w : addr) (fuel : nat) : M value :=
  o <- deref w ;;
  match ob_kind o, ob_closure o with
  | KFunction _, Some cl => wrapped E cl fuel
  | KCoroutineFunction _, Some cl => wrapped_async E cl fuel
  | _, _ => stuck
  end.

End HotRestart.

(** ** wrap_module *)

Module WrapModule.

Import HotRestart.

(** What [wrap_module] reads from the interpreter: the name of the module
    that [inspect.getmodule(v)] finds for an object ([None] when it finds
    none), the table [sys.modules], and the name of the calling module
    ([sys._getframe(1).f_globals["__name__"]]). *)
Record env := Env {
  getmodule_name : addr -> option string;
  sys_modules : string -> option addr;
  caller_name : string
}.

(** The argument [module_or_name]: [None], a name, or a module object. *)
Inductive module_arg :=
| ArgNone
| ArgName (name : string)
| ArgModule (m : addr).

Definition KeyError : exn :=
  Exn ["KeyError"; "LookupError"; "Exception"; "BaseException"] 0.

(** [getattr(v, name, False)] for a value of the module's dictionary: a
    value that is not an object with a dictionary has no such attribute. *)
Definition getattr_value (v : value) (name : string) : M value :=
  match v with
  | VRef a => getattr a name (VBool false)
  | _ => ret (VBool false)
  end.

(** [inspect.isclass(v)] for such a value. *)
Definition isclass_value (v : value) : M bool :=
  match v with
  | VRef a => isclass (Some a)
  | _ => ret false
  end.

(** [v_module and v_module.__name__ == module_name], where
    [v_module = inspect.getmodule(v)]. *)
Definition same_module (E : env) (v : value) (module_name : string) : bool :=
  match v with
  | VRef a =>
      match getmodule_name E a with
      | Some n => String.eqb n module_name
      | None => false
      end
  | _ => false
  end.

(** [module.__name__]. *)
Definition module___name__ (m : addr) : M string :=
  o <- deref m ;;
  match dict_get (ob_dict o) "__name__" with
  | Some (VStr s) => ret s
  | _ => raise AttributeError
  end.

(** The first loop, over the snapshot [list(module_d.items())]; [out_d]
    collects the wrappers under their names. *)
Fixpoint wrap_entries (E : env) (module_name : string)
    (items : list (string * value)) (out_d : list (string * value))
    : M (list (string * value)) :=
  match items with
  | [] => ret out_d
  | (k, v) :: rest =>
      out_d' <-
        (no_wrap <- getattr_value v HOT_RESTART_NO_WRAP ;;
         if truthy no_wrap then ret out_d
         else
           already <- getattr_value v HOT_RESTART_ALREADY_WRAPPED ;;
           if truthy already then ret out_d
           else
             c <- isclass_value v ;;
             if (c : bool) then
               match v with
               | VRef a =>
                   if same_module E v module_name
                   then hot_restart_wrap_class a ;; ret out_d
                   else ret out_d
               | _ => ret out_d
               end
             else
               cl <- callable v ;;
               if (cl : bool) then
                 match v with
                 | VRef a =>
                     if same_module E v module_name
                     then
                       w <- hot_restart_wrap (Some a)
                              default_propagated_exceptions
                              default_propagate_keyboard_interrupt ;;
                       ret (dict_set out_d k w)
                     else ret out_d
                 | _ => ret out_d
                 end
               else ret out_d) ;;
      wrap_entries E module_name rest out_d'
  end.

(** The second loop: [for k, v in out_d.items(): module_d[k] = v]. *)
Fixpoint assign_entries (m : addr) (out_d : list (string * value)) : M unit :=
  match out_d with
  | [] => ret tt
  | (k, v) :: rest => setattr m k v ;; assign_entries m rest
  end.

(** The module object and the module name that the first lines of
    [wrap_module] arrive at. *)
Definition resolve_module (E : env) (module_or_name : module_arg)
    : M (addr * string) :=
  match module_or_name with
  | ArgModule m => name <- module___name__ m ;; ret (m, name)
  | ArgName name =>
      match sys_modules E name with
      | Some m => ret (m, name)
      | None => raise KeyError
      end
  | ArgNone =>
      match sys_modules E (caller_name E) with
      | Some m => ret (m, caller_name E)
      | None => raise KeyError
      end
  end.

(** [wrap_module(module_or_name)]. *)
Definition wrap_module (E : env) (module_or_name : module_arg) : M unit :=
  mn <- resolve_module E module_or_name ;;
  module_o <- deref (fst mn) ;;
  out_d <- wrap_entries E (snd mn) (ob_dict module_o) [] ;;
  assign_entries (fst mn) out_d.

End WrapModule.

(** ** Vocabulary of the statements *)

(** *** Hybrid traces *)

(** The addresses visited by a chain, outermost first. *)
Fixpoint chain_addrs (tb : option addr) (l : list traceback) : list addr :=
  match l, tb with
  | t :: l', Some a => a :: chain_addrs (tb_next t) l'
  | _, _ => []
  end.

(** The traceback objects that the second loop allocates for the frames
    [fs] (innermost first) when the store has [base] objects and the trace
    built so far starts at [prev]. *)
Fixpoint link_frames (base : nat) (prev : option addr) (fs : list frame)
    : list traceback :=
  match fs with
  | [] => []
  | f :: fs' =>
      Traceback prev f (f_lasti f) (f_lineno f)
      :: link_frames (S base) (Some base) fs'
  end.

Fixpoint link_last (base : nat) (prev : option addr) (fs : list frame)
    : option addr :=
  match fs with
  | [] => prev
  | _ :: fs' => link_last (S base) (Some base) fs'
  end.

(** The live frames that are kept: those whose code is not the wrapper's. *)
Definition kept_frames (current_frame : option frame) (wrapper_code : code)
    : list frame :=
  filter (fun f => f_code f <> wrapper_code) (frame_chain_opt current_frame).

(** What a trace entry shows: its frame (hence its code), last
    instruction and line. *)
Definition tb_view (t : traceback) : frame * Z * Z :=
  (tb_frame t, tb_lasti t, tb_lineno t).

Definition frame_view (f : frame) : frame * Z * Z :=
  (f, f_lasti f, f_lineno f).

(** Whether the deepest dead frame runs the wrapper's code. *)
Definition deepest_is_wrapper (dead : list traceback) (wrapper_code : code)
    : bool :=
  match last dead with
  | Some t => bool_decide (f_code (tb_frame t) = wrapper_code)
  | None => false
  end.

Definition wrapper_bonus (dead : list traceback) (wrapper_code : code) : Z :=
  if deepest_is_wrapper dead wrapper_code then 1%Z else 0%Z.

(** The dead-frame count as the specification words it: the number of
    dead frames minus one, clamped at zero, plus one when the deepest dead
    frame is the wrapper's. *)
Definition dead_count_as_stated (h : tb_heap) (exc_tb : option addr)
    (dead : list traceback) (current_frame : option frame)
    (wrapper_code : code) : Prop :=
  exists h' new_tb,
    StackReviver._create_undead_traceback h exc_tb current_frame wrapper_code
    = Some (h', new_tb,
            (Z.max 0 (Z.of_nat (length dead) - 1)
             + wrapper_bonus dead wrapper_code)%Z).

(** A two-frame dead trace: the wrapper's frame (code 0) that called a
    function (code 20) which raised; the caller of the wrapper has code 11. *)
Definition ex_caller : frame := Frame 11 4 200 None.
Definition ex_wrapper_frame : frame := Frame 0 6 178 None.
Definition ex_func_frame : frame := Frame 20 2 300 None.
Definition ex_heap : tb_heap :=
  [Traceback None ex_func_frame 2 300;
   Traceback (Some 0) ex_wrapper_frame 6 178].
Definition ex_dead : list traceback :=
  [Traceback (Some 0) ex_wrapper_frame 6 178;
   Traceback None ex_func_frame 2 300].

(** *** Refresh and debugger dispatch *)

(** The world after the registry's logger was handed [p]. *)
Definition logged (p : log_payload) (w : world) : world :=
  World (w_objects w) (w_tb_heap w) (w_events w ++ [EvRegistryLog p])
        (w_EXIT_THIS_FRAME w).

(** A subscriber that raises, one that only leaves a mark, and a target
    whose [refresh()] leaves a mark. *)
Definition raising_subscriber (e : exn) : EventSource.subscriber :=
  fun _ _ => raise e.
Definition marking_subscriber (tag : nat) : EventSource.subscriber :=
  fun _ _ => emit_event (EvExternal tag).
Definition ex_target : target := Target 0 (emit_event (EvExternal 100)).
Definition ex_registry : Watcher.Registry :=
  {| Watcher.registry_get := fun _ => Some ex_target |}.

(** A watcher whose only [prerun] subscriber raises [ValueError]. *)
Definition ex_watcher_bad_prerun : Watcher.t :=
  {| Watcher.registry := ex_registry;
     Watcher.debounce := Some 50%Z;
     Watcher.prerun := [raising_subscriber ValueError];
     Watcher.postrun := [marking_subscriber 2] |}.

Definition ex_watcher : Watcher.t :=
  {| Watcher.registry := ex_registry;
     Watcher.debounce := Some 50%Z;
     Watcher.prerun := [marking_subscriber 1];
     Watcher.postrun := [marking_subscriber 2] |}.

Definition empty_world : world := World [] [] [] false.

(** The specification's reading of the hook emissions: an exception [e]
    raised by a subscriber reaches the caller of [refresh]. *)
Definition subscriber_exception_propagates (self : Watcher.t)
    (path : option string) (w : world) (e : exn) : Prop :=
  exists w', Watcher.refresh self path w = Some (Raise e, w').

(** Debugger environments in which no module can be imported. *)
Definition nothing_importable (debugger_name : string) : Debugger.env :=
  Debugger.Env debugger_name (fun _ => false) false.

(** *** Debounce *)

(** A handler for ["a.py"] with a debounce interval, and the schedule in
    which a second event arrives while the first timer's refresh is
    running and a third after that refresh has returned. *)
Definition ex_handler : JuriggedHandler.t :=
  JuriggedHandler.init (fun s => s) (Some 50%Z) "a.py".

Definition race_schedule : list JuriggedHandler.step :=
  [JuriggedHandler.Modified "a.py" 1%Z;
   JuriggedHandler.TimerFires 0;
   JuriggedHandler.Modified "a.py" 2%Z;
   JuriggedHandler.TimerReturns 0;
   JuriggedHandler.Modified "a.py" 3%Z].

(** Schedules in which a timer's callback runs to its end before anything
    else happens to the handler. *)
Inductive atomic_step :=
| AModified (src_path : string) (getmtime : Z)
| ATimerRuns (a : addr).

Definition expand_step (s : atomic_step) : list JuriggedHandler.step :=
  match s with
  | AModified p m => [JuriggedHandler.Modified p m]
  | ATimerRuns a => [JuriggedHandler.TimerFires a; JuriggedHandler.TimerReturns a]
  end.

Definition atomic_schedule (l : list atomic_step) : list JuriggedHandler.step :=
  concat (map expand_step l).

(** Only the timer held in [self.timer] can be pending, no callback is in
    progress, and without a debounce interval nothing is pending. *)
Definition one_timer (self : JuriggedHandler.t) : Prop :=
  (forall a, JuriggedHandler.timer_state_at self a = Some JuriggedHandler.Waiting ->
             JuriggedHandler.timer self = Some a)
  /\ (forall a, JuriggedHandler.timer_state_at self a <> Some JuriggedHandler.Running)
  /\ (JuriggedHandler.debounce_set (JuriggedHandler.watcher_debounce self) = false ->
      forall a, JuriggedHandler.timer_state_at self a <> Some JuriggedHandler.Waiting).

(** *** Wrapping and wrapped calls *)

(** Whether an object carries a true [_hot_restart_already_wrapped]. *)
Definition marked (o : pyobj) : bool :=
  truthy (default (VBool false)
            (dict_get (ob_dict o) HotRestart.HOT_RESTART_ALREADY_WRAPPED)).

Definition is_class (o : pyobj) : bool :=
  match ob_kind o with
  | KClass => true
  | _ => false
  end.

(** The world after the wrapped function was executed for the k-th time
    by a wrapper that had reset the exit flag. *)
Definition called (func : addr) (k : nat) (w : world) : world :=
  World (w_objects w) (w_tb_heap w) (w_events w ++ [EvCall func k]) false.

(** An exception that the wrapper hands on: its class is in the
    propagated set, or it is a [KeyboardInterrupt] and propagation of
    interrupts is enabled. *)
Definition propagated (cl : closure) (e : exn) : Prop :=
  isinstance_any e (cl_propagated_exceptions cl) = true
  \/ (cl_propagate_keyboard_interrupt cl = true
      /\ isinstance e "KeyboardInterrupt" = true).

(** An exception that sends the wrapper into recovery. *)
Definition recovered (cl : closure) (e : exn) : Prop :=
  isinstance e "Exception" = true
  /\ isinstance_any e (cl_propagated_exceptions cl) = false
  /\ (cl_propagate_keyboard_interrupt cl
      && isinstance e "KeyboardInterrupt") = false.

(** Wrap [func] with the default keyword arguments and call the result. *)
Definition wrap_and_call (E : HotRestart.env) (func : addr) (fuel : nat)
    : M value :=
  (r <- HotRestart.hot_restart_wrap (Some func)
          HotRestart.default_propagated_exceptions
          HotRestart.default_propagate_keyboard_interrupt ;;
   match r with
   | VRef wrapper => HotRestart.call_wrapper E wrapper fuel
   | _ => stuck
   end)%py.

(** A module with a function (object 0), a coroutine function (object 1),
    a class (object 2) whose members are a function, a nested class
    (object 3) and a coroutine function. *)
Definition ex_objects : list pyobj :=
  [PyObj (KFunction 20) [] (ModuleFile "/m.py") None;
   PyObj (KCoroutineFunction 30) [] (ModuleFile "/m.py") None;
   PyObj KClass
         [("__module__", VStr "m"); ("first", VRef 0);
          ("Meta", VRef 3); ("run", VRef 1)]
         (ModuleFile "/m.py") None;
   PyObj KClass [("__module__", VStr "m")] (ModuleFile "/m.py") None].

Definition ex_world : world := World ex_objects ex_heap [] false.

(** The wrapped callable raises [ValueError] on its first execution (with
    the dead trace of [ex_heap]) and returns 7 afterwards. *)
Definition ex_behaviour (func : addr) (k : nat) : HotRestart.outcome :=
  match k with
  | 0 => HotRestart.Raises ValueError (Some 1)
  | _ => HotRestart.Returns (VInt 7)
  end.

Definition pdb_env : Debugger.env := Debugger.Env "pdb" (fun _ => true) false.

Definition ex_env (wi : option Watcher.t) : HotRestart.env :=
  HotRestart.Env ex_behaviour (Some ex_caller) wi pdb_env.

(** A wrapped callable that raises [Cancelled], an exception class that
    the wrapper was told to propagate. *)
Definition Cancelled : exn :=
  Exn ["Cancelled"; "Exception"; "BaseException"] 7.

Definition ex_propagating_closure : closure :=
  Closure 0 ["StopIteration"; "Cancelled"] true (Some "/m.py") None.


(** The specification's reading of a missing watcher: the refresh after
    the session does nothing and the retried call's result is returned. *)
Definition no_watcher_refresh_is_noop (func : addr) : Prop :=
  exists w', wrap_and_call (ex_env None) func 5 ex_world
             = Some (Ok (VInt 7), w').

(** The world in which an asynchronous wrapper (object 4) of object 1
    exists, as [hot_restart_wrap] leaves it. *)
Definition ex_async_closure : closure :=
  Closure 1 ["StopIteration"] true (Some "/m.py") (Some 4).

Definition ex_wrapped_world : world :=
  World (ex_objects ++
         [PyObj (KCoroutineFunction HotRestart.wrapped_async_code)
                [("__wrapped__", VRef 1);
                 ("_hot_restart_already_wrapped", VBool true)]
                (ModuleFile "/m.py") (Some ex_async_closure)])
        ex_heap [] false.




(** The object that a first wrap of [f] allocates. *)
Definition new_wrapper (w : world) (f : addr) (fo : pyobj)
    (pe : list exc_class) (pki : bool) : pyobj :=
  match ob_kind fo with
  | KCoroutineFunction _ =>
      PyObj (KCoroutineFunction HotRestart.wrapped_async_code)
            (dict_set (HotRestart.wraps_dict f fo) HotRestart.HOT_RESTART_ALREADY_WRAPPED (VBool true))
            (ob_module fo)
            (Some (Closure f pe pki (module_file (ob_module fo))
                           (Some (length (w_objects w)))))
  | _ =>
      PyObj (KFunction HotRestart.wrapped_code)
            (dict_set (HotRestart.wraps_dict f fo) HotRestart.HOT_RESTART_ALREADY_WRAPPED (VBool true))
            (ob_module fo)
            (Some (Closure f pe pki (module_file (ob_module fo)) None))
  end.


(** The traceback heap, the head of the hybrid trace and the dead-frame
    count that [_create_undead_traceback] produces in world [w] for the
    dead trace [dead] starting at [tb]. *)
Definition hybrid_heap (w : world) (tb : option addr)
    (caller : option frame) (c : code) : list traceback :=
  w_tb_heap w ++ link_frames (length (w_tb_heap w)) tb (kept_frames caller c).

Definition hybrid_tb (w : world) (tb : option addr)
    (caller : option frame) (c : code) : option addr :=
  link_last (length (w_tb_heap w)) tb (kept_frames caller c).

Definition hybrid_count (dead : list traceback) (c : code) : Z :=
  (Z.max 0 (Z.of_nat (length dead) - 2) + wrapper_bonus dead c)%Z.

(** The world in which the post-mortem session starts during the k-th
    execution of [func]. *)
Definition at_session (func : addr) (k : nat) (w : world)
    (tb : option addr) (caller : option frame) (c : code) : world :=
  World (w_objects w) (hybrid_heap w tb caller c)
        (w_events w ++ [EvCall func k]) (w_EXIT_THIS_FRAME w).

(** *** Further vocabulary: bursts of events *)

(** Every modification time in [ms] differs from the one before it,
    starting from [prev]: each event of the burst qualifies. *)
Fixpoint all_change (prev : Z) (ms : list Z) : bool :=
  match ms with
  | [] => true
  | m :: ms' => negb (m =? prev)%Z && all_change m ms'
  end.

(** The events for path [p] that carry the modification times [ms]. *)
Definition burst (p : string) (ms : list Z) : list JuriggedHandler.step :=
  map (JuriggedHandler.Modified p) ms.

(** A timer that has been cancelled or has run. *)
Definition timer_over (s : JuriggedHandler.timer_state) : Prop :=
  s = JuriggedHandler.Cancelled \/ s = JuriggedHandler.Finished.

(** The state of a handler in the middle of a burst: [k] cancelled timers
    and one waiting timer, which [self.timer] holds; nothing refreshed
    yet. *)
Definition bursting (d : Z) (fname np : string) (m : Z) (k : nat)
    (self : JuriggedHandler.t) : Prop :=
  self = JuriggedHandler.Handler (Some d) fname np m (Some k)
           (replicate k (JuriggedHandler.TimerObj d JuriggedHandler.Cancelled) ++ [JuriggedHandler.TimerObj d JuriggedHandler.Waiting]) [].

(** The heap after the hybrid trace for [ex_heap] and the caller
    [ex_caller] has been built. *)
Definition ex_hybrid_heap : list traceback :=
  ex_heap ++ [Traceback (Some 1) ex_caller 4 200].

(** *** Further vocabulary: wrapped calls *)

(** Whether the handler of a wrapper goes on to the recovery steps for
    [e]: it is an [Exception], its class is not propagated, and it is not
    a propagated [KeyboardInterrupt]. *)
Definition enters_recovery (cl : closure) (e : exn) : bool :=
  isinstance e "Exception"
  && negb (isinstance_any e (cl_propagated_exceptions cl))
  && negb (cl_propagate_keyboard_interrupt cl
           && isinstance e "KeyboardInterrupt").

(** What a synchronous wrapper hands to its caller after one execution of
    the wrapped callable. *)
Definition sync_result (cl : closure) (o : HotRestart.outcome) : result value :=
  match o with
  | HotRestart.Returns v => Ok v
  | HotRestart.Raises e _ =>
      if enters_recovery cl e then Raise NameError else Raise e
  end.

(** The interpreter's interrupt: not an [Exception]. *)
Definition KeyboardInterrupt : exn :=
  Exn ["KeyboardInterrupt"; "BaseException"] 0.

(** A wrapper that was asked not to propagate interrupts, and a callable
    that is interrupted. *)
Definition ex_no_interrupt_closure : closure :=
  Closure 0 ["StopIteration"] false (Some "/m.py") None.

Definition interrupted_env : HotRestart.env :=
  HotRestart.Env (fun _ _ => HotRestart.Raises KeyboardInterrupt (Some 1))
                 (Some ex_caller) None pdb_env.

(** A callable that returns 7 at once. *)
Definition returning_env : HotRestart.env :=
  HotRestart.Env (fun _ _ => HotRestart.Returns (VInt 7))
                 (Some ex_caller) None pdb_env.

(** The world after the k-th execution of [func] by a wrapper in its
    loop. *)
Definition executed (func : addr) (k : nat) (w : world) : world :=
  World (w_objects w) (w_tb_heap w) (w_events w ++ [EvCall func k])
        (w_EXIT_THIS_FRAME w).

(** *** Further vocabulary: wrapping *)

(** Calling the [functools.partial] object that [hot_restart_wrap]
    returns when it is given keyword arguments only: the stored keyword
    arguments are passed on with the positional argument. *)
Definition call_partial (p : addr) (func : option addr) : M value :=
  (o <- deref p ;;
   match ob_kind o with
   | KPartial pe pki => HotRestart.hot_restart_wrap func pe pki
   | _ => stuck
   end)%py.

(** The world with one more object. *)
Definition with_object (w : world) (o : pyobj) : world :=
  World (w_objects w ++ [o]) (w_tb_heap w) (w_events w) (w_EXIT_THIS_FRAME w).


(** *** Further vocabulary: wrapping the members of a class *)

(** Whether [callable(v)] holds for a dictionary value. *)
Definition callable_in (objs : list pyobj) (v : value) : bool :=
  match v with
  | VRef a =>
      match objs !! a with
      | Some o => callable_kind (ob_kind o)
      | None => false
      end
  | _ => false
  end.

(** A member that refers to an object refers to an existing object that
    is not a class and that, if [hot_restart_wrap] has to build a wrapper
    for it (it is callable and not marked), has a module that [inspect]
    finds. *)
Definition member_ok (objs : list pyobj) (v : value) : Prop :=
  match v with
  | VRef a =>
      exists o, objs !! a = Some o /\ is_class o = false
                /\ (callable_kind (ob_kind o) = true -> marked o = false ->
                    ob_module o <> NoModule)
  | _ => True
  end.

(** How a member [v] of a class relates to the value [v'] found under the
    same name afterwards: a callable member has become a marked callable,
    either itself (it was marked already) or a wrapper around it; any
    other member is unchanged. *)
Definition wrapped_member (objs objs' : list pyobj) (v v' : value) : Prop :=
  match v with
  | VRef a =>
      if callable_in objs v then
        exists a' o',
          v' = VRef a' /\ objs' !! a' = Some o'
          /\ marked o' = true /\ is_class o' = false
          /\ (a' = a \/ exists cl, ob_closure o' = Some cl /\ cl_func cl = a)
      else v' = v
  | _ => v' = v
  end.

(** The outcome of wrapping the members [items] of class [cls], whose
    object is [c] in world [w] and [c'] in world [w']. *)
Definition members_wrapped (cls : addr) (items : list (string * value))
    (w : world) (c : pyobj) (w' : world) (c' : pyobj) : Prop :=
  w_objects w' !! cls = Some c'
  /\ is_class c' = true
  /\ map fst (ob_dict c') = map fst (ob_dict c)
  /\ (forall k, k ∉ map fst items ->
                dict_get (ob_dict c') k = dict_get (ob_dict c) k)
  /\ (forall k v, (k, v) ∈ items ->
        exists v', dict_get (ob_dict c') k = Some v'
                   /\ wrapped_member (w_objects w) (w_objects w') v v')
  /\ (forall a o, a <> cls -> w_objects w !! a = Some o ->
                  w_objects w' !! a = Some o)
  /\ w_tb_heap w' = w_tb_heap w
  /\ w_events w' = w_events w
  /\ w_EXIT_THIS_FRAME w' = w_EXIT_THIS_FRAME w.

(** A class whose members are a function, a coroutine function and a
    string. *)
Definition ex_flat_class_world : world :=
  World [PyObj (KFunction 20) [] (ModuleFile "/m.py") None;
         PyObj (KCoroutineFunction 30) [] (ModuleFile "/m.py") None;
         PyObj KClass
               [("__module__", VStr "m"); ("first", VRef 0); ("run", VRef 1)]
               (ModuleFile "/m.py") None]
        [] [] false.

(** *** Further vocabulary: wrapping a module *)

(** From [w] to [w'] every object is still there, a class is still a
    class, and an object that is not a class is exactly as it was. *)
Definition evolves (w w' : world) : Prop :=
  forall a o, w_objects w !! a = Some o ->
    exists o', w_objects w' !! a = Some o'
               /\ is_class o' = is_class o
               /\ (is_class o = false -> o' = o).

(** Whether [wrap_module] rebinds an entry with value [v]: an object of
    this module that is callable, not a class, and carries neither mark. *)
Definition eligible (E : WrapModule.env) (module_name : string)
    (objs : list pyobj) (v : value) : bool :=
  match v with
  | VRef a =>
      match objs !! a with
      | Some o =>
          negb (truthy (default (VBool false)
                          (dict_get (ob_dict o) HotRestart.HOT_RESTART_NO_WRAP)))
          && negb (marked o)
          && negb (is_class o)
          && callable_kind (ob_kind o)
          && WrapModule.same_module E v module_name
      | None => false
      end
  | _ => false
  end.

(** The body of the first loop of [wrap_module] for one entry. *)
Definition wrap_entry (E : WrapModule.env) (module_name : string)
    (k : string) (v : value) (out_d : list (string * value))
    : M (list (string * value)) :=
  (no_wrap <- WrapModule.getattr_value v HotRestart.HOT_RESTART_NO_WRAP ;;
   if truthy no_wrap then ret out_d
   else
     already <- WrapModule.getattr_value v
                  HotRestart.HOT_RESTART_ALREADY_WRAPPED ;;
     if truthy already then ret out_d
     else
       c <- WrapModule.isclass_value v ;;
       if (c : bool) then
         match v with
         | VRef a =>
             if WrapModule.same_module E v module_name
             then HotRestart.hot_restart_wrap_class a ;; ret out_d
             else ret out_d
         | _ => ret out_d
         end
       else
         cl <- callable v ;;
         if (cl : bool) then
           match v with
           | VRef a =>
               if WrapModule.same_module E v module_name
               then
                 w <- HotRestart.hot_restart_wrap (Some a)
                        HotRestart.default_propagated_exceptions
                        HotRestart.default_propagate_keyboard_interrupt ;;
                 ret (dict_set out_d k w)
               else ret out_d
           | _ => ret out_d
           end
         else ret out_d)%py.

(** An entry that has been rebound: [v'] is a marked wrapper around the
    object that [v] refers to. *)
Definition rebound (objs' : list pyobj) (v v' : value) : Prop :=
  exists a x ox,
    v = VRef a /\ v' = VRef x /\ objs' !! x = Some ox
    /\ marked ox = true /\ is_class ox = false
    /\ exists cl, ob_closure ox = Some cl /\ cl_func cl = a.

(** A module [m] (object 4) with a function [f], a function [g] marked
    no-wrap, a function [h] imported from [os], a class [C] and a number;
    and a module (object 4 again) whose class has a nested class. *)
Definition ex_module_env : WrapModule.env :=
  WrapModule.Env (fun a => if decide (a = 2) then Some "os" else Some "m")
                 (fun n => if String.eqb n "m" then Some 4 else None)
                 "m".

Definition ex_module_world : world :=
  World [PyObj (KFunction 20) [] (ModuleFile "/m.py") None;
         PyObj (KFunction 21) [("_hot_restart_no_wrap", VBool true)]
               (ModuleFile "/m.py") None;
         PyObj (KFunction 22) [] (ModuleFile "/os.py") None;
         PyObj KClass [("run", VRef 0)] (ModuleFile "/m.py") None;
         PyObj (KOther false)
               [("__name__", VStr "m"); ("f", VRef 0); ("g", VRef 1);
                ("h", VRef 2); ("C", VRef 3); ("x", VInt 1)]
               (ModuleFile "/m.py") None]
        [] [] false.

Definition ex_module_world_after : world :=
  Eval vm_compute in
    match WrapModule.wrap_module ex_module_env (WrapModule.ArgModule 4)
            ex_module_world with
    | Some (_, w') => w'
    | None => ex_module_world
    end.

Definition ex_nested_env : WrapModule.env :=
  WrapModule.Env (fun _ => Some "m")
                 (fun n => if String.eqb n "m" then Some 4 else None)
                 "m".

Definition ex_nested_module : pyobj :=
  PyObj (KOther false)
        [("__name__", VStr "m"); ("f", VRef 0); ("C", VRef 2)]
        (ModuleFile "/m.py") None.

Definition ex_nested_module_world : world :=
  World (ex_objects ++ [ex_nested_module]) [] [] false.

Definition ex_nested_module_world_after : world :=
  Eval vm_compute in
    match WrapModule.wrap_module ex_nested_env WrapModule.ArgNone
            ex_nested_module_world with
    | Some (_, w') => w'
    | None => ex_nested_module_world
    end.

(** * Properties *)

(** ** StackReviver *)

Section StackReviverFacts.

Import StackReviver.

(** Induction over a frame and its callers. *)
Lemma frame_back_ind (P : frame -> Prop) :
  (forall c li ln, P (Frame c li ln None)) ->
  (forall c li ln p, P p -> P (Frame c li ln (Some p))) ->
  forall f, P f.
Proof.
  intros Hroot Hcall.
  fix IH 1.
  intros [c li ln [p|]].
  - apply Hcall, IH.
  - apply Hroot.
Qed.

Lemma tb_chain_det h tb l1 l2 :
  tb_chain h tb l1 -> tb_chain h tb l2 -> l1 = l2.
Proof.
  intros H1. revert l2.
  induction H1 as [|a t l Ha _ IH]; intros l2 H2; inversion H2; subst.
  - reflexivity.
  - assert (t0 = t) by congruence. subst t0.
    f_equal. by apply IH.
Qed.

(** Allocation at the end of the store keeps every chain. *)
Lemma tb_chain_extend h ext tb l :
  tb_chain h tb l -> tb_chain (h ++ ext) tb l.
Proof.
  induction 1 as [|a t l Ha _ IH]; constructor; [|done].
  by apply lookup_app_l_Some.
Qed.

Lemma chain_addrs_length h tb l :
  tb_chain h tb l -> length (chain_addrs tb l) = length l.
Proof. induction 1; simpl; congruence. Qed.

Lemma chain_addrs_bound h tb l a :
  tb_chain h tb l -> a ∈ chain_addrs tb l -> (a < length h)%nat.
Proof.
  induction 1 as [|b t l Hb _ IH]; simpl; intros Hin.
  - by apply elem_of_nil in Hin.
  - apply elem_of_cons in Hin as [->|Hin]; [|by apply IH].
    by eapply lookup_lt_Some.
Qed.

(** From any address on a chain, the rest of the chain is a chain. *)
Lemma chain_addrs_tail h tb l a :
  tb_chain h tb l -> a ∈ chain_addrs tb l ->
  exists l', tb_chain h (Some a) l' /\ (length l' <= length l)%nat.
Proof.
  induction 1 as [|b t l Hb Hl IH]; simpl; intros Hin.
  - by apply elem_of_nil in Hin.
  - apply elem_of_cons in Hin as [->|Hin].
    + exists (t :: l). split; [by constructor | done].
    + destruct (IH Hin) as (l' & Hl' & Hlen).
      exists l'. split; [done | simpl; lia].
Qed.

(** A finite chain never visits an object twice. *)
Lemma chain_addrs_NoDup h tb l :
  tb_chain h tb l -> NoDup (chain_addrs tb l).
Proof.
  induction 1 as [|a t l Ha Hl IH]; simpl.
  - constructor.
  - apply NoDup_cons. split; [|done].
    intros Hin.
    destruct (chain_addrs_tail _ _ _ _ Hl Hin) as (l' & Hl' & Hlen).
    assert (l' = t :: l) as ->.
    { eapply tb_chain_det; [exact Hl' | by constructor]. }
    simpl in Hlen. lia.
Qed.

(** Hence a chain is never longer than the store. *)
Lemma tb_chain_length h tb l :
  tb_chain h tb l -> (length l <= length h)%nat.
Proof.
  intros Hc.
  rewrite <- (chain_addrs_length _ _ _ Hc).
  assert (chain_addrs tb l ⊆+ seq 0 (length h)) as Hsub.
  { apply NoDup_submseteq.
    - by eapply chain_addrs_NoDup.
    - intros a Ha. apply elem_of_seq.
      pose proof (chain_addrs_bound _ _ _ _ Hc Ha). lia. }
  apply submseteq_length in Hsub.
  by rewrite length_seq in Hsub.
Qed.

(** The deepest object of a chain. *)
Lemma chain_last h tb l a :
  tb_chain h tb l -> last (chain_addrs tb l) = Some a ->
  exists t, h !! a = Some t /\ last l = Some t.
Proof.
  induction 1 as [|b t l Hb Hl IH]; simpl; [done|].
  destruct Hl as [|c t' l' Hc Hl']; simpl in *.
  - intros [= <-]. eauto.
  - intros Hlast. destruct (IH Hlast) as (u & Hu & Hlu). eauto.
Qed.

(** The first loop walks to the deepest object and counts the links. *)
Lemma dead_loop_spec h tb l :
  tb_chain h tb l ->
  forall fuel n, (length l <= fuel)%nat -> (0 < fuel)%nat ->
    dead_loop h fuel tb n
    = Some ((n + Z.of_nat (length l - 1))%Z, last (chain_addrs tb l)).
Proof.
  induction 1 as [|a t l Ha Hl IH]; intros fuel n Hlen Hpos.
  - destruct fuel; [lia|]. simpl. do 2 f_equal. lia.
  - destruct fuel as [|fuel]; [lia|]. simpl in *. rewrite Ha.
    destruct Hl as [|b t' l' Hb Hl'].
    + simpl. do 2 f_equal. lia.
    + rewrite IH by (simpl in *; lia). simpl.
      do 2 f_equal. lia.
Qed.

Lemma link_frames_length base prev fs :
  length (link_frames base prev fs) = length fs.
Proof. revert base prev. induction fs; simpl; intros; [done|by f_equal]. Qed.

Lemma link_frames_view base prev fs :
  map tb_view (link_frames base prev fs) = map frame_view fs.
Proof. revert base prev. induction fs; simpl; intros; [done|by f_equal]. Qed.

Lemma link_frames_frames base prev fs :
  map tb_frame (link_frames base prev fs) = fs.
Proof. revert base prev. induction fs; simpl; intros; [done|by f_equal]. Qed.

(** The second loop appends the objects for the kept frames. *)
Lemma live_loop_spec wc fr :
  forall h prev,
    live_loop fr wc h prev
    = (h ++ link_frames (length h) prev
              (filter (fun f => f_code f <> wc) (frame_chain fr)),
       link_last (length h) prev
              (filter (fun f => f_code f <> wc) (frame_chain fr))).
Proof.
  induction fr as [c li ln | c li ln p IH] using frame_back_ind;
    intros h prev; simpl.
  - rewrite filter_cons. simpl.
    destruct (decide (c <> wc)); simpl; [done|].
    by rewrite app_nil_r.
  - rewrite filter_cons. simpl.
    destruct (decide (c <> wc)); simpl.
    + rewrite IH, length_app. simpl.
      rewrite Nat.add_1_r, <- app_assoc. done.
    + by rewrite IH.
Qed.

(** The new objects, read from the last one allocated, are the kept frames
    from the outermost inwards, followed by the trace they were linked
    to. *)
Lemma link_frames_chain fs :
  forall h prev dead,
    tb_chain h prev dead ->
    tb_chain (h ++ link_frames (length h) prev fs)
             (link_last (length h) prev fs)
             (rev (link_frames (length h) prev fs) ++ dead).
Proof.
  induction fs as [|f fs IH]; intros h prev dead Hc; simpl.
  - by rewrite app_nil_r.
  - set (t := Traceback prev f (f_lasti f) (f_lineno f)).
    assert (tb_chain (h ++ [t]) (Some (length h)) (t :: dead)) as Hc'.
    { constructor.
      - by rewrite lookup_app_r, Nat.sub_diag.
      - by apply tb_chain_extend. }
    specialize (IH _ _ _ Hc').
    rewrite length_app in IH. simpl in IH. rewrite Nat.add_1_r in IH.
    rewrite <- !app_assoc in IH. simpl in IH.
    rewrite <- app_assoc. exact IH.
Qed.

End StackReviverFacts.

Section StackReviverClaims.

Import StackReviver.

(** The result of [_create_undead_traceback] on a well-formed dead trace,
    in closed form. *)
Lemma create_undead_traceback_eq h exc_tb dead current_frame wrapper_code :
  tb_chain h exc_tb dead ->
  _create_undead_traceback h exc_tb current_frame wrapper_code
  = Some (h ++ link_frames (length h) exc_tb
                   (kept_frames current_frame wrapper_code),
          link_last (length h) exc_tb
                   (kept_frames current_frame wrapper_code),
          (Z.max 0 (Z.of_nat (length dead) - 2)
           + wrapper_bonus dead wrapper_code)%Z).
Proof.
  intros Hc. unfold _create_undead_traceback.
  pose proof (tb_chain_length _ _ _ Hc) as Hlen.
  rewrite (dead_loop_spec _ _ _ Hc) by lia.
  assert (live_loop_opt current_frame wrapper_code h exc_tb
          = (h ++ link_frames (length h) exc_tb
                    (kept_frames current_frame wrapper_code),
             link_last (length h) exc_tb
                    (kept_frames current_frame wrapper_code))) as ->.
  { unfold kept_frames. destruct current_frame as [fr|]; simpl.
    - apply live_loop_spec.
    - by rewrite app_nil_r. }
  do 2 f_equal.
  unfold wrapper_bonus, deepest_is_wrapper.
  destruct (last (chain_addrs exc_tb dead)) as [a|] eqn:Hlast.
  - destruct (chain_last _ _ _ _ Hc Hlast) as (t & Ha & Ht).
    rewrite Ha, Ht.
    destruct (decide (f_code (tb_frame t) = wrapper_code)) as [Heq|Hne].
    + rewrite bool_decide_eq_true_2 by done. lia.
    + rewrite bool_decide_eq_false_2 by done. lia.
  - assert (dead = []) as ->.
    { destruct Hc as [|b t l Hb Hl]; [done|].
      simpl in Hlast. destruct Hl; simpl in Hlast; [done|].
      apply last_None in Hlast. done. }
    simpl. lia.
Qed.

Lemma ex_dead_chain : tb_chain ex_heap (Some 1) ex_dead.
Proof. repeat (econstructor; [reflexivity|]). constructor. Qed.

(** C2 (as the code has it).  For every dead exception trace the
    dead-frame count is the number of dead frames minus two, clamped at
    zero (the loop counts the links between dead frames, starting from
    minus one), and it is one more exactly when the trace is not empty and
    its deepest frame runs the wrapper function's code. *)
Theorem dead_frame_count h exc_tb dead current_frame wrapper_code :
  tb_chain h exc_tb dead ->
  exists h' new_tb n,
    _create_undead_traceback h exc_tb current_frame wrapper_code
    = Some (h', new_tb, n)
    /\ (deepest_is_wrapper dead wrapper_code = false ->
        n = Z.max 0 (Z.of_nat (length dead) - 2))
    /\ (deepest_is_wrapper dead wrapper_code = true ->
        n = (Z.max 0 (Z.of_nat (length dead) - 2) + 1)%Z).
Proof.
  intros Hc. do 3 eexists. split.
  - by apply create_undead_traceback_eq.
  - unfold wrapper_bonus.
    split; intros ->; lia.
Qed.

Lemma dead_frame_count_witness :
  tb_chain ex_heap (Some 1) ex_dead
  /\ exists h' new_tb n,
       _create_undead_traceback ex_heap (Some 1) (Some ex_caller) 0
       = Some (h', new_tb, n)
       /\ (deepest_is_wrapper ex_dead 0 = false ->
           n = Z.max 0 (Z.of_nat (length ex_dead) - 2))
       /\ (deepest_is_wrapper ex_dead 0 = true ->
           n = (Z.max 0 (Z.of_nat (length ex_dead) - 2) + 1)%Z).
Proof.
  split; [exact ex_dead_chain|].
  exact (dead_frame_count ex_heap (Some 1) ex_dead (Some ex_caller) 0
           ex_dead_chain).
Defined.

(** C2 as stated fails: with two dead frames (the wrapper's and the
    function's) the count is 0, not 2 - 1 = 1. *)
Lemma dead_frame_count_counterexample :
  tb_chain ex_heap (Some 1) ex_dead
  /\ ~ dead_count_as_stated ex_heap (Some 1) ex_dead (Some ex_caller) 0.
Proof.
  split; [exact ex_dead_chain|].
  intros (h' & new_tb & Heq). vm_compute in Heq. discriminate Heq.
Qed.

(** C3.  For every dead exception trace and live caller chain the
    construction only allocates: every traceback object that existed keeps
    all its fields, so the original trace is still the same chain of the
    same objects.  The hybrid trace consists of new objects for exactly the
    live caller frames whose code differs from the wrapper function's, each
    with that frame's [f_lasti] and [f_lineno], from the outermost caller
    inwards, followed by the dead trace itself. *)
Theorem hybrid_trace_segments h exc_tb dead current_frame wrapper_code :
  tb_chain h exc_tb dead ->
  exists h' new_tb n live,
    _create_undead_traceback h exc_tb current_frame wrapper_code
    = Some (h', new_tb, n)
    /\ (forall a t, h !! a = Some t -> h' !! a = Some t)
    /\ tb_chain h' exc_tb dead
    /\ tb_chain h' new_tb (live ++ dead)
    /\ map tb_view live
       = rev (map frame_view (kept_frames current_frame wrapper_code))
    /\ (forall f, f ∈ map tb_frame live <->
                  f ∈ frame_chain_opt current_frame
                  /\ f_code f <> wrapper_code).
Proof.
  intros Hc.
  exists (h ++ link_frames (length h) exc_tb
                 (kept_frames current_frame wrapper_code)),
         (link_last (length h) exc_tb
                 (kept_frames current_frame wrapper_code)),
         (Z.max 0 (Z.of_nat (length dead) - 2)
          + wrapper_bonus dead wrapper_code)%Z,
         (rev (link_frames (length h) exc_tb
                 (kept_frames current_frame wrapper_code))).
  assert (map tb_view
            (rev (link_frames (length h) exc_tb
                    (kept_frames current_frame wrapper_code)))
          = rev (map frame_view (kept_frames current_frame wrapper_code)))
    as Hview.
  { by rewrite map_rev, link_frames_view. }
  split; [by apply create_undead_traceback_eq|].
  split; [intros a t Ha; by apply lookup_app_l_Some|].
  split; [by apply tb_chain_extend|].
  split; [by apply link_frames_chain|].
  split; [exact Hview|].
  intros f.
  rewrite map_rev, link_frames_frames.
  rewrite list_elem_of_In, <- in_rev, <- list_elem_of_In.
  unfold kept_frames.
  by rewrite list_elem_of_filter, (comm and).
Qed.

Lemma hybrid_trace_segments_witness :
  tb_chain ex_heap (Some 1) ex_dead
  /\ exists h' new_tb n live,
       _create_undead_traceback ex_heap (Some 1) (Some ex_caller) 0
       = Some (h', new_tb, n)
       /\ (forall a t, ex_heap !! a = Some t -> h' !! a = Some t)
       /\ tb_chain h' (Some 1) ex_dead
       /\ tb_chain h' new_tb (live ++ ex_dead)
       /\ map tb_view live = rev (map frame_view (kept_frames (Some ex_caller) 0))
       /\ (forall f, f ∈ map tb_frame live <->
                     f ∈ frame_chain_opt (Some ex_caller) /\ f_code f <> 0).
Proof.
  split; [exact ex_dead_chain|].
  exact (hybrid_trace_segments ex_heap (Some 1) ex_dead (Some ex_caller) 0
           ex_dead_chain).
Defined.

End StackReviverClaims.

(** ** Watcher.refresh *)

Section RefreshClaims.

Lemma registry_log_eq p w : Watcher.registry_log p w = Some (Ok tt, logged p w).
Proof. reflexivity. Qed.

(** C5 (as the code has it).  For a registered path, [refresh] runs the
    [prerun] emission, the target's [refresh()] and the [postrun] emission
    inside one [try]: an [Exception] raised by any of the three (a
    subscriber included) is caught and handed to the registry's logger, and
    [refresh] returns normally; nothing that is an [Exception] reaches the
    caller.  When [prerun] raises, the target is not refreshed; when the
    target's [refresh()] raises, [postrun] is not emitted; when all three
    succeed nothing is logged. *)
Theorem refresh_isolation (self : Watcher.t) path cf w :
  Watcher.registry_get (Watcher.registry self) path = Some cf ->
  (forall e w', Watcher.refresh self path w = Some (Raise e, w') ->
     Watcher.is_Exception e = false)
  /\ (forall e w1,
        EventSource.emit (Watcher.prerun self) path cf w = Some (Raise e, w1) ->
        Watcher.is_Exception e = true ->
        Watcher.refresh self path w = Some (Ok tt, logged (LogExc e) w1))
  /\ (forall e w1 w2,
        EventSource.emit (Watcher.prerun self) path cf w = Some (Ok tt, w1) ->
        target_refresh cf w1 = Some (Raise e, w2) ->
        Watcher.is_Exception e = true ->
        Watcher.refresh self path w = Some (Ok tt, logged (LogExc e) w2))
  /\ (forall e w1 w2 w3,
        EventSource.emit (Watcher.prerun self) path cf w = Some (Ok tt, w1) ->
        target_refresh cf w1 = Some (Ok tt, w2) ->
        EventSource.emit (Watcher.postrun self) path cf w2 = Some (Raise e, w3) ->
        Watcher.is_Exception e = true ->
        Watcher.refresh self path w = Some (Ok tt, logged (LogExc e) w3))
  /\ (forall w1 w2 w3,
        EventSource.emit (Watcher.prerun self) path cf w = Some (Ok tt, w1) ->
        target_refresh cf w1 = Some (Ok tt, w2) ->
        EventSource.emit (Watcher.postrun self) path cf w2 = Some (Ok tt, w3) ->
        Watcher.refresh self path w = Some (Ok tt, w3)).
Proof.
  intros Hget. unfold Watcher.refresh. rewrite Hget.
  unfold try_except, bind.
  repeat split.
  - intros e w'.
    destruct (EventSource.emit (Watcher.prerun self) path cf w)
      as [[[[]|e1] w1]|]; [| |done].
    + destruct (target_refresh cf w1) as [[[[]|e2] w2]|]; [| |done].
      * destruct (EventSource.emit (Watcher.postrun self) path cf w2)
          as [[[[]|e3] w3]|]; [done| |done].
        destruct (Watcher.is_Exception e3) eqn:He3; [done|].
        by intros [= <- <-].
      * destruct (Watcher.is_Exception e2) eqn:He2; [done|].
        by intros [= <- <-].
    + destruct (Watcher.is_Exception e1) eqn:He1; [done|].
      by intros [= <- <-].
  - intros e w1 -> ->. reflexivity.
  - intros e w1 w2 -> -> ->. reflexivity.
  - intros e w1 w2 w3 -> -> -> ->. reflexivity.
  - intros w1 w2 w3 -> -> ->. reflexivity.
Qed.

Lemma refresh_isolation_witness :
  Watcher.refresh ex_watcher_bad_prerun (Some "a.py") empty_world
  = Some (Ok tt, logged (LogExc ValueError) empty_world).
Proof.
  apply (refresh_isolation ex_watcher_bad_prerun (Some "a.py") ex_target
           empty_world eq_refl);
    reflexivity.
Defined.

(** C5 as stated fails: a [ValueError] raised by a [prerun] subscriber does
    not reach the caller of [refresh]. *)
Lemma refresh_isolation_counterexample :
  ~ subscriber_exception_propagates ex_watcher_bad_prerun (Some "a.py")
      empty_world ValueError.
Proof. intros (w' & Heq). vm_compute in Heq. discriminate Heq. Qed.

End RefreshClaims.

(** ** Debugger dispatch *)

Section DebuggerClaims.

(** The [pydevd] backend does fall back: with [pydevd] not importable it
    calls [breakpoint()] and returns. *)
Lemma pydevd_missing_falls_back path ei n w :
  Debugger._start_post_mortem (nothing_importable "pydevd") path ei n w
  = Some (Ok tt,
          World (w_objects w) (w_tb_heap w)
                (w_events w ++ [EvStderr path; EvBreakpoint])
                (w_EXIT_THIS_FRAME w)).
Proof.
  unfold Debugger._start_post_mortem. simpl.
  unfold Debugger._start_pydevd_post_mortem, bind, try_except,
    emit_event, Debugger.breakpoint, Debugger.import_module, raise, ret.
  simpl. by rewrite <- app_assoc.
Qed.

(** C6 (the code against the claim).  With [DEBUGGER = "pudb"] and [pudb]
    not importable at the time of the call, the dispatch raises the import
    error to its caller: no breakpoint is reached and nothing else
    happens. *)
Theorem pudb_missing_raises path ei n w :
  Debugger._start_post_mortem (nothing_importable "pudb") path ei n w
  = Some (Raise Debugger.ModuleNotFoundError, w).
Proof. reflexivity. Qed.

End DebuggerClaims.

(** ** Debounce *)

Section DebounceClaims.

Import JuriggedHandler.

(** C8 (the code against the claim).  An event that arrives while the
    first timer's refresh is running schedules timer 1; when that refresh
    returns, [_refresh] clears [self.timer]; the next event therefore
    cancels nothing and schedules timer 2: two timers are pending for the
    one path. *)
Theorem two_pending_timers :
  pending (run ex_handler race_schedule) = [1; 2]
  /\ timer (run ex_handler race_schedule) = Some 2
  /\ refreshed (run ex_handler race_schedule) = ["a.py"].
Proof. vm_compute. done. Qed.

End DebounceClaims.

(** ** hot_restart_wrap *)

Section WrapFacts.

Import HotRestart.

Lemma dict_get_set d k v : dict_get (dict_set d k v) k = Some v.
Proof.
  induction d as [|[k' v'] d IH]; simpl.
  - by rewrite String.eqb_refl.
  - destruct (String.eqb k' k) eqn:Hk; simpl.
    + by rewrite String.eqb_refl.
    + by rewrite Hk.
Qed.

(** Equations of the monad and of the object primitives. *)
Lemma bind_ok {A B} (m : M A) (k : A -> M B) w a w' :
  m w = Some (Ok a, w') -> bind m k w = k a w'.
Proof. unfold bind. by intros ->. Qed.

Lemma bind_raise {A B} (m : M A) (k : A -> M B) w e w' :
  m w = Some (Raise e, w') -> bind m k w = Some (Raise e, w').
Proof. unfold bind. by intros ->. Qed.

Lemma deref_eq w a o :
  w_objects w !! a = Some o -> deref a w = Some (Ok o, w).
Proof. unfold deref. by intros ->. Qed.

Lemma isclass_eq w f o :
  w_objects w !! f = Some o -> isclass (Some f) w = Some (Ok (is_class o), w).
Proof.
  intros Hf. unfold isclass. by rewrite (bind_ok _ _ _ _ _ (deref_eq _ _ _ Hf)).
Qed.

Lemma getattr_eq w a o name d :
  w_objects w !! a = Some o ->
  getattr a name d w = Some (Ok (default d (dict_get (ob_dict o) name)), w).
Proof.
  intros Ha. unfold getattr.
  rewrite (bind_ok _ _ _ _ _ (deref_eq _ _ _ Ha)).
  by destruct (dict_get (ob_dict o) name).
Qed.

Lemma iscoroutinefunction_eq w a o :
  w_objects w !! a = Some o ->
  iscoroutinefunction a w
  = Some (Ok (match ob_kind o with KCoroutineFunction _ => true | _ => false end),
          w).
Proof.
  intros Ha. unfold iscoroutinefunction.
  by rewrite (bind_ok _ _ _ _ _ (deref_eq _ _ _ Ha)).
Qed.

Lemma get_module_file_path_eq w a o :
  w_objects w !! a = Some o -> ob_module o <> NoModule ->
  get_module_file_path a w = Some (Ok (module_file (ob_module o)), w).
Proof.
  intros Ha Hm. unfold get_module_file_path.
  rewrite (bind_ok _ _ _ _ _ (deref_eq _ _ _ Ha)).
  by destruct (ob_module o).
Qed.

Lemma get_module_file_path_no_module w a o :
  w_objects w !! a = Some o -> ob_module o = NoModule ->
  get_module_file_path a w = Some (Raise AttributeError, w).
Proof.
  intros Ha Hm. unfold get_module_file_path.
  by rewrite (bind_ok _ _ _ _ _ (deref_eq _ _ _ Ha)), Hm.
Qed.

Lemma setattr_eq w a o name v :
  w_objects w !! a = Some o ->
  setattr a name v w
  = Some (Ok tt,
          World (<[a := PyObj (ob_kind o) (dict_set (ob_dict o) name v)
                               (ob_module o) (ob_closure o)]>
                   (w_objects w))
                (w_tb_heap w) (w_events w) (w_EXIT_THIS_FRAME w)).
Proof.
  intros Ha. unfold setattr.
  by rewrite (bind_ok _ _ _ _ _ (deref_eq _ _ _ Ha)).
Qed.

(** A class argument is rejected and nothing is touched. *)
Lemma wrap_rejects_class w f o pe pki :
  w_objects w !! f = Some o -> is_class o = true ->
  hot_restart_wrap (Some f) pe pki w = Some (Raise ValueError, w).
Proof.
  intros Hf Hc. unfold hot_restart_wrap.
  rewrite (bind_ok _ _ _ _ _ (isclass_eq _ _ _ Hf)).
  by rewrite Hc.
Qed.

(** Wrapping a marked callable returns it and touches nothing. *)
Lemma wrap_marked w f o pe pki :
  w_objects w !! f = Some o -> is_class o = false -> marked o = true ->
  hot_restart_wrap (Some f) pe pki w = Some (Ok (VRef f), w).
Proof.
  intros Hf Hc Hm. unfold hot_restart_wrap.
  rewrite (bind_ok _ _ _ _ _ (isclass_eq _ _ _ Hf)), Hc.
  rewrite (bind_ok _ _ _ _ _ (getattr_eq _ _ _ _ _ Hf)).
  unfold marked in Hm. by rewrite Hm.
Qed.

Lemma new_wrapper_marked w f fo pe pki :
  marked (new_wrapper w f fo pe pki) = true
  /\ is_class (new_wrapper w f fo pe pki) = false.
Proof.
  unfold new_wrapper, marked, is_class.
  destruct (ob_kind fo); simpl; by rewrite dict_get_set.
Qed.

(** Wrapping an unmarked callable whose module [inspect] finds allocates
    exactly one object, the wrapper, and leaves every existing object as
    it was. *)
Lemma wrap_unmarked w f fo pe pki :
  w_objects w !! f = Some fo -> is_class fo = false -> marked fo = false ->
  ob_module fo <> NoModule ->
  hot_restart_wrap (Some f) pe pki w
  = Some (Ok (VRef (length (w_objects w))),
          World (w_objects w ++ [new_wrapper w f fo pe pki])
                (w_tb_heap w) (w_events w) (w_EXIT_THIS_FRAME w)).
Proof.
  intros Hf Hc Hm Hmod. unfold hot_restart_wrap.
  rewrite (bind_ok _ _ _ _ _ (isclass_eq _ _ _ Hf)), Hc.
  rewrite (bind_ok _ _ _ _ _ (getattr_eq _ _ _ _ _ Hf)).
  unfold marked in Hm. rewrite Hm.
  rewrite (bind_ok _ _ _ _ _ (iscoroutinefunction_eq _ _ _ Hf)).
  unfold new_wrapper.
  destruct (ob_kind fo) eqn:Hk;
    rewrite (bind_ok _ _ _ _ _ (get_module_file_path_eq _ _ _ Hf Hmod));
    rewrite (bind_ok _ _ _ _ _ (deref_eq _ _ _ Hf));
    try (unfold alloc_self;
         erewrite (bind_ok (bind get_objects _)) by reflexivity);
    try (erewrite (bind_ok (alloc _)) by reflexivity);
    (erewrite bind_ok;
     [| apply setattr_eq; simpl; by rewrite lookup_app_r, Nat.sub_diag]);
    unfold ret; simpl; do 3 f_equal;
    by rewrite <- (Nat.add_0_r (length (w_objects w))), insert_app_r.
Qed.

(** Wrapping an unmarked callable for which [inspect] finds no module
    raises [AttributeError] before anything is allocated or marked. *)
Lemma wrap_no_module w f fo pe pki :
  w_objects w !! f = Some fo -> is_class fo = false -> marked fo = false ->
  ob_module fo = NoModule ->
  hot_restart_wrap (Some f) pe pki w = Some (Raise AttributeError, w).
Proof.
  intros Hf Hc Hm Hmod. unfold hot_restart_wrap.
  rewrite (bind_ok _ _ _ _ _ (isclass_eq _ _ _ Hf)), Hc.
  rewrite (bind_ok _ _ _ _ _ (getattr_eq _ _ _ _ _ Hf)).
  unfold marked in Hm. rewrite Hm.
  rewrite (bind_ok _ _ _ _ _ (iscoroutinefunction_eq _ _ _ Hf)).
  destruct (ob_kind fo);
    by rewrite (bind_raise _ _ _ _ _
                  (get_module_file_path_no_module _ _ _ Hf Hmod)).
Qed.

End WrapFacts.

(** ** The wrappers *)

Section CallFacts.

Import HotRestart.

(** Both wrappers hand a propagated exception straight on. *)
Lemma wrapped_body_propagates E cl wi k w e tb :
  behaviour E (cl_func cl) k = Raises e tb ->
  propagated cl e ->
  wrapped_body E cl wi k w
  = Some (Raise e,
          World (w_objects w) (w_tb_heap w)
                (w_events w ++ [EvCall (cl_func cl) k]) (w_EXIT_THIS_FRAME w)).
Proof.
  intros Hb Hp. unfold wrapped_body.
  erewrite bind_ok by reflexivity. rewrite Hb.
  destruct (isinstance e "Exception"); simpl; [|done].
  destruct Hp as [-> | [-> ->]]; [done|].
  simpl. by destruct (isinstance_any e (cl_propagated_exceptions cl)).
Qed.


(** What a coroutine hands to whoever awaits it. *)
Lemma coroutine_raise {A} (body : M A) w e w' :
  body w = Some (Raise e, w') ->
  coroutine body w
  = Some (Raise (if is_StopIteration e then RuntimeError else e), w').
Proof. unfold coroutine. by intros ->. Qed.

Lemma coroutine_ok {A} (body : M A) w a w' :
  body w = Some (Ok a, w') -> coroutine body w = Some (Ok a, w').
Proof. unfold coroutine. by intros ->. Qed.




(** The call of [_create_undead_traceback] from a wrapper. *)
Lemma create_undead_eq w tb dead caller wa o c :
  w_objects w !! wa = Some o -> function_code o = Some c ->
  tb_chain (w_tb_heap w) tb dead ->
  create_undead_traceback tb caller wa w
  = Some (Ok (hybrid_tb w tb caller c, hybrid_count dead c),
          World (w_objects w) (hybrid_heap w tb caller c) (w_events w)
                (w_EXIT_THIS_FRAME w)).
Proof.
  intros Ho Hc Hch. unfold create_undead_traceback.
  rewrite (bind_ok _ _ _ _ _ (deref_eq _ _ _ Ho)), Hc.
  by rewrite (create_undead_traceback_eq _ _ _ _ _ Hch).
Qed.

(** Recovery in the synchronous wrapper stops at the unbound variable. *)
Lemma wrapped_body_NameError E cl wi k w e tb :
  behaviour E (cl_func cl) k = Raises e tb ->
  recovered cl e ->
  cl_wrapped_async cl = None ->
  wrapped_body E cl wi k w
  = Some (Raise NameError,
          World (w_objects w) (w_tb_heap w)
                (w_events w ++ [EvCall (cl_func cl) k]) (w_EXIT_THIS_FRAME w)).
Proof.
  intros Hb (He & Hp & Hk) Hcell. unfold wrapped_body.
  erewrite bind_ok by reflexivity.
  rewrite Hb, He, Hp, Hk. simpl.
  unfold load_wrapped_async. by rewrite Hcell.
Qed.

(** Recovery in the asynchronous wrapper, up to the end of the session. *)
Lemma wrapped_async_body_recovers E cl wi k w e tb dead wa o c w1 :
  behaviour E (cl_func cl) k = Raises e tb ->
  recovered cl e ->
  cl_wrapped_async cl = Some wa ->
  w_objects w !! wa = Some o -> function_code o = Some c ->
  tb_chain (w_tb_heap w) tb dead ->
  Debugger._start_post_mortem (debugger E) (cl_module_file_path cl)
    (e, hybrid_tb w tb (caller_frame E) c) (hybrid_count dead c)
    (at_session (cl_func cl) k w tb (caller_frame E) c)
  = Some (Ok tt, w1) ->
  wrapped_async_body E cl wi k w
  = bind (watch_instance_refresh wi (cl_module_file_path cl))
         (fun _ => ret None) w1.
Proof.
  intros Hb (He & Hp & Hk) Hcell Ho Hc Hch Hpm. unfold wrapped_async_body.
  erewrite bind_ok by reflexivity.
  rewrite Hb, He, Hp, Hk. simpl.
  unfold load_wrapped_async. rewrite Hcell.
  erewrite bind_ok by reflexivity.
  erewrite bind_ok.
  2:{ eapply create_undead_eq; [exact Ho | exact Hc | exact Hch]. }
  simpl.
  erewrite bind_ok by exact Hpm.
  reflexivity.
Qed.

(** One turn of the asynchronous wrapper's loop. *)
Lemma wrapped_async_loop_step E cl wi fuel k w :
  w_EXIT_THIS_FRAME w = false ->
  wrapped_async_loop E cl wi (S fuel) k w
  = match wrapped_async_body E cl wi k w with
    | None => None
    | Some (Ok (Some v), w') => Some (Ok v, w')
    | Some (Ok None, w') => wrapped_async_loop E cl wi fuel (S k) w'
    | Some (Raise e, w') => Some (Raise e, w')
    end.
Proof.
  intros Hflag. cbn [wrapped_async_loop].
  unfold bind at 1. unfold get_EXIT_THIS_FRAME. rewrite Hflag.
  unfold bind at 1.
  destruct (wrapped_async_body E cl wi k w) as [[[[v|]|e] w']|];
    reflexivity.
Qed.

(** C4 (as the code has it).  When the asynchronous wrapper enters
    recovery and the post-mortem session has ended: with the active watcher
    unset, the refresh step raises [AttributeError] to the wrapper's caller
    and the call is not retried; with an active watcher whose
    [refresh(module_file_path)] returns, the loop goes on to the next
    execution of the wrapped callable. *)
Theorem recovery_refresh E cl fuel k w e tb dead wa o c w1 :
  behaviour E (cl_func cl) k = Raises e tb ->
  recovered cl e ->
  cl_wrapped_async cl = Some wa ->
  w_objects w !! wa = Some o -> function_code o = Some c ->
  tb_chain (w_tb_heap w) tb dead ->
  w_EXIT_THIS_FRAME w = false ->
  Debugger._start_post_mortem (debugger E) (cl_module_file_path cl)
    (e, hybrid_tb w tb (caller_frame E) c) (hybrid_count dead c)
    (at_session (cl_func cl) k w tb (caller_frame E) c)
  = Some (Ok tt, w1) ->
  wrapped_async_loop E cl None (S fuel) k w = Some (Raise AttributeError, w1)
  /\ forall W w2,
       Watcher.refresh W (cl_module_file_path cl) w1 = Some (Ok tt, w2) ->
       wrapped_async_loop E cl (Some W) (S fuel) k w
       = wrapped_async_loop E cl (Some W) fuel (S k) w2.
Proof.
  intros Hb Hr Hcell Ho Hc Hch Hflag Hpm.
  split; [|intros W w2 Href];
    rewrite (wrapped_async_loop_step _ _ _ _ _ _ Hflag),
      (wrapped_async_body_recovers _ _ _ _ _ _ _ _ _ _ _ _
         Hb Hr Hcell Ho Hc Hch Hpm);
    unfold bind, watch_instance_refresh.
  - reflexivity.
  - by rewrite Href.
Qed.

Lemma recovery_refresh_witness :
  exists w1,
    wrapped_async_loop (ex_env None) ex_async_closure None 1 0 ex_wrapped_world
    = Some (Raise AttributeError, w1).
Proof.
  eexists.
  eapply (proj1 (recovery_refresh (ex_env None) ex_async_closure 0 0
                   ex_wrapped_world ValueError (Some 1) ex_dead 4 _ 1 _
                   eq_refl (conj eq_refl (conj eq_refl eq_refl))
                   eq_refl eq_refl eq_refl
                   ex_dead_chain
                   eq_refl eq_refl)).
Defined.

(** C4 as stated fails: with no active watcher the asynchronous wrapper
    of a callable that raises once and then returns 7 does not return 7. *)
Lemma recovery_refresh_counterexample : ~ no_watcher_refresh_is_noop 1.
Proof. intros (w' & Heq). vm_compute in Heq. discriminate Heq. Qed.

(** Every wrapper that [hot_restart_wrap] builds for a callable that is
    not a coroutine function fails in this way as soon as the callable
    raises an exception that is not propagated. *)
Lemma sync_wrapper_NameError E w f fo fuel e tb :
  w_objects w !! f = Some fo -> is_class fo = false -> marked fo = false ->
  (forall c, ob_kind fo <> KCoroutineFunction c) ->
  behaviour E f 0 = Raises e tb ->
  ob_module fo <> NoModule ->
  recovered (Closure f default_propagated_exceptions
                     default_propagate_keyboard_interrupt
                     (module_file (ob_module fo)) None) e ->
  exists w',
    wrap_and_call E f (S fuel) w = Some (Raise NameError, w')
    /\ w_events w' = w_events w ++ [EvCall f 0].
Proof.
  intros Hf Hc Hm Hco Hb Hmod Hr. unfold wrap_and_call.
  rewrite (bind_ok _ _ _ _ _ (wrap_unmarked _ _ _ _ _ Hf Hc Hm Hmod)).
  set (cl := Closure f default_propagated_exceptions
                     default_propagate_keyboard_interrupt
                     (module_file (ob_module fo)) None) in *.
  assert (new_wrapper w f fo default_propagated_exceptions
            default_propagate_keyboard_interrupt
          = PyObj (KFunction wrapped_code)
                  (dict_set (wraps_dict f fo) HOT_RESTART_ALREADY_WRAPPED
                            (VBool true))
                  (ob_module fo) (Some cl)) as ->.
  { unfold new_wrapper. destruct (ob_kind fo) eqn:Hk; try reflexivity.
    by destruct (Hco c). }
  unfold call_wrapper.
  erewrite bind_ok.
  2:{ apply deref_eq. simpl. by rewrite lookup_app_r, Nat.sub_diag. }
  simpl. unfold wrapped.
  erewrite bind_ok by reflexivity. simpl.
  erewrite bind_ok by reflexivity. simpl.
  erewrite bind_raise.
  2:{ by apply (wrapped_body_NameError E cl _ 0 _ e tb). }
  eexists. split; reflexivity.
Qed.

(** C1 (the code against the claim).  The same callable behaviour, wrapped
    once as a function and once as a coroutine function, with an active
    watcher.  The asynchronous wrapper opens the post-mortem session on the
    hybrid trace, refreshes and retries, returning 7.  The synchronous
    wrapper raises [NameError] after the first execution: no session, no
    refresh, no retry. *)
Theorem sync_wrapper_recovery_differs :
  (exists w', wrap_and_call (ex_env (Some ex_watcher)) 0 5 ex_world
              = Some (Raise NameError, w')
              /\ w_events w' = [EvCall 0 0])
  /\ (exists w', wrap_and_call (ex_env (Some ex_watcher)) 1 5 ex_world
                 = Some (Ok (VInt 7), w')
                 /\ w_events w'
                    = [EvCall 1 0; EvPdbInteraction (Some 2); EvExternal 1;
                       EvExternal 100; EvExternal 2; EvCall 1 1]).
Proof.
  split; eexists; (split; [vm_compute; reflexivity|]); reflexivity.
Qed.

End CallFacts.

(** ** Idempotence and classes *)

Section WrapClaims.

Import HotRestart.

(** C9.  For every callable (not a class) that carries a true
    already-wrapped marker, [hot_restart_wrap] returns that very object and
    changes nothing: no object is allocated and no attribute is set.  The
    marker is set once, at the first wrap: wrapping an unmarked callable
    whose module [inspect] finds allocates exactly one object, the marked
    wrapper, leaves all existing objects as they were, and wrapping that
    wrapper again, with any keyword arguments, returns it unchanged.  An
    unmarked callable for which [inspect] finds no module is not wrapped:
    the call raises [AttributeError] and changes nothing, so no marker is
    set. *)
Theorem wrap_idempotent w f o pe pki :
  w_objects w !! f = Some o -> is_class o = false ->
  (marked o = true ->
   hot_restart_wrap (Some f) pe pki w = Some (Ok (VRef f), w))
  /\ (marked o = false -> ob_module o <> NoModule ->
      exists wr new w',
        hot_restart_wrap (Some f) pe pki w = Some (Ok (VRef wr), w')
        /\ w_objects w' = w_objects w ++ [new]
        /\ w_objects w' !! wr = Some new
        /\ marked new = true
        /\ forall pe' pki',
             hot_restart_wrap (Some wr) pe' pki' w' = Some (Ok (VRef wr), w'))
  /\ (marked o = false -> ob_module o = NoModule ->
      hot_restart_wrap (Some f) pe pki w = Some (Raise AttributeError, w)).
Proof.
  intros Hf Hc. split; [|split]; intros Hm.
  - by eapply wrap_marked.
  - intros Hmod.
    destruct (new_wrapper_marked w f o pe pki) as [Hnm Hnc].
    exists (length (w_objects w)), (new_wrapper w f o pe pki).
    eexists. split; [by apply wrap_unmarked|]. simpl.
    assert ((w_objects w ++ [new_wrapper w f o pe pki])
              !! length (w_objects w)
            = Some (new_wrapper w f o pe pki)) as Hnew.
    { by rewrite lookup_app_r, Nat.sub_diag. }
    repeat split; [exact Hnew | exact Hnm |].
    intros pe' pki'. by eapply wrap_marked.
  - intros Hmod. by eapply wrap_no_module.
Qed.

Lemma wrap_idempotent_witness :
  hot_restart_wrap (Some 4) [] false ex_wrapped_world
  = Some (Ok (VRef 4), ex_wrapped_world)
  /\ exists wr new w',
       hot_restart_wrap (Some 0) [] false ex_world = Some (Ok (VRef wr), w')
       /\ w_objects w' = w_objects ex_world ++ [new]
       /\ w_objects w' !! wr = Some new
       /\ marked new = true
       /\ forall pe' pki',
            hot_restart_wrap (Some wr) pe' pki' w' = Some (Ok (VRef wr), w').
Proof.
  split.
  - apply (proj1 (wrap_idempotent ex_wrapped_world 4 _ [] false
                    eq_refl eq_refl)).
    reflexivity.
  - apply (proj1 (proj2 (wrap_idempotent ex_world 0 _ [] false
                           eq_refl eq_refl))).
    + reflexivity.
    + discriminate.
Defined.

(** C10 (the code against the claim).  [hot_restart_wrap] rejects the
    class (object 2) with [ValueError] and leaves the world as it was.
    [hot_restart_wrap_class] on that class replaces its member [first] by
    a wrapper (object 4), then reaches the member [Meta], a nested class,
    and raises [ValueError]: [Meta] and the callable member [run] after it
    are left as they were. *)
Theorem wrap_class_stops_at_nested_class :
  hot_restart_wrap (Some 2) default_propagated_exceptions
    default_propagate_keyboard_interrupt ex_world
  = Some (Raise ValueError, ex_world)
  /\ exists w',
       hot_restart_wrap_class 2 ex_world = Some (Raise ValueError, w')
       /\ ob_dict <$> w_objects w' !! 2
          = Some [("__module__", VStr "m"); ("first", VRef 4);
                  ("Meta", VRef 3); ("run", VRef 1)]
       /\ length (w_objects w') = 5.
Proof.
  split; [reflexivity|].
  eexists. split; [vm_compute; reflexivity|]. split; reflexivity.
Qed.

End WrapClaims.

(** ** Debounce with atomic callbacks *)

Section DebounceFacts.

Import JuriggedHandler.

Lemma timer_state_at_set a s self b :
  timer_state_at (set_timer_state a s self) b
  = if decide (a = b) then (fun _ => s) <$> timer_state_at self b
    else timer_state_at self b.
Proof.
  unfold timer_state_at, set_timer_state. simpl.
  destruct (decide (a = b)) as [->|Hne].
  - rewrite list_lookup_alter_eq. by destruct (timers self !! b).
  - by rewrite list_lookup_alter_ne.
Qed.

(** Cancelling turns a waiting timer into a cancelled one and changes
    nothing else. *)
Lemma timer_cancel_state a ts b :
  state <$> timer_cancel a ts !! b
  = if decide (a = b)
    then match state <$> ts !! b with
         | Some Waiting => Some Cancelled
         | s => s
         end
    else state <$> ts !! b.
Proof.
  unfold timer_cancel.
  destruct (ts !! a) as [[i []]|] eqn:Ha;
    destruct (decide (a = b)) as [->|Hne];
    rewrite ?Ha; simpl; try reflexivity.
  - rewrite list_lookup_insert_eq; [done|]. by eapply lookup_lt_Some.
  - by rewrite list_lookup_insert_ne.
Qed.

Lemma on_modified_one_timer self p m :
  one_timer self -> one_timer (on_modified self p m).
Proof.
  intros (Hw & Hr & Hd). unfold on_modified.
  destruct (String.eqb p (normalized_filename self)); [|done].
  destruct (negb (m =? mtime self)%Z); [|done]. simpl.
  destruct (debounce_set (watcher_debounce self)) eqn:Hdeb.
  - (* a new timer replaces the cancelled one *)
    set (ts := match timer self with
               | Some a => timer_cancel a (timers self)
               | None => timers self
               end).
    assert (forall b, state <$> ts !! b <> Some Waiting) as Hnow.
    { intros b Hb. subst ts. destruct (timer self) as [a|] eqn:Ht.
      - rewrite timer_cancel_state in Hb.
        destruct (decide (a = b)) as [->|Hne].
        + destruct (state <$> timers self !! b) as [[]|]; discriminate Hb.
        + apply Hw in Hb. congruence.
      - apply Hw in Hb. congruence. }
    assert (forall b, state <$> ts !! b <> Some Running) as Hnor.
    { intros b Hb. subst ts. destruct (timer self) as [a|] eqn:Ht.
      - rewrite timer_cancel_state in Hb.
        destruct (decide (a = b)) as [->|Hne].
        + destruct (state <$> timers self !! b) as [[]|] eqn:Hs;
            try discriminate Hb. by apply (Hr b).
        + by apply (Hr b).
      - by apply (Hr b). }
    unfold one_timer, timer_state_at. simpl.
    repeat split.
    + intros a Ha.
      destruct (decide (a < length ts)%nat) as [Hlt|Hge].
      * rewrite lookup_app_l in Ha by done. by apply Hnow in Ha.
      * rewrite lookup_app_r in Ha by lia.
        destruct (a - length ts)%nat as [|n] eqn:Hn; simpl in Ha;
          [|by destruct n].
        f_equal. lia.
    + intros a Ha.
      destruct (decide (a < length ts)%nat) as [Hlt|Hge].
      * rewrite lookup_app_l in Ha by done. by apply Hnor in Ha.
      * rewrite lookup_app_r in Ha by lia.
        destruct (a - length ts)%nat as [|n]; simpl in Ha;
          [discriminate Ha | by destruct n].
    + intros Hoff. congruence.
  - (* no debounce: refresh at once *)
    unfold one_timer, timer_state_at. simpl.
    repeat split.
    + intros a Ha. by apply (Hd eq_refl) in Ha.
    + exact Hr.
    + intros _. exact (Hd eq_refl).
Qed.

Lemma timer_runs_one_timer self a :
  one_timer self ->
  one_timer (do_step (do_step self (TimerFires a)) (TimerReturns a)).
Proof.
  intros (Hw & Hr & Hd).
  cbn [do_step].
  destruct (timer_state_at self a) as [[]|] eqn:Ha;
    try (rewrite Ha; by repeat split);
    try (exfalso; by apply (Hr a)).
  (* the timer was waiting: it runs and finishes *)
  assert (timer_state_at (_refresh_call (set_timer_state a Running self)) a
          = Some Running) as Hrun.
  { change (timer_state_at (set_timer_state a Running self) a = Some Running).
    rewrite timer_state_at_set, decide_True by done. by rewrite Ha. }
  rewrite Hrun.
  assert (forall b,
            timer_state_at
              (set_timer_state a Finished
                 (_refresh_clear (_refresh_call (set_timer_state a Running self))))
              b
            = if decide (a = b) then Some Finished else timer_state_at self b)
    as Hst.
  { intros b.
    rewrite timer_state_at_set.
    change (timer_state_at
              (_refresh_clear (_refresh_call (set_timer_state a Running self))) b)
      with (timer_state_at (set_timer_state a Running self) b).
    rewrite timer_state_at_set.
    destruct (decide (a = b)) as [->|Hne]; [|done].
    by rewrite Ha. }
  repeat split.
  - intros b Hb. rewrite Hst in Hb.
    destruct (decide (a = b)); [discriminate Hb|].
    apply Hw in Hb. pose proof (Hw _ Ha). congruence.
  - intros b Hb. rewrite Hst in Hb.
    destruct (decide (a = b)); [discriminate Hb|]. by apply (Hr b).
  - intros Hoff b Hb. rewrite Hst in Hb.
    destruct (decide (a = b)); [discriminate Hb|]. by apply (Hd Hoff b).
Qed.

(** With atomic callbacks the handler never has more than its one timer
    pending, whatever the events and their order. *)
Lemma atomic_schedule_one_timer sched :
  forall self, one_timer self -> one_timer (run self (atomic_schedule sched)).
Proof.
  induction sched as [|s sched IH]; intros self Hinv; [done|].
  unfold atomic_schedule, run in *. simpl. rewrite fold_left_app.
  apply IH. destruct s as [p m|a]; simpl.
  - by apply on_modified_one_timer.
  - by apply timer_runs_one_timer.
Qed.

Lemma init_one_timer normpath d fname : one_timer (init normpath d fname).
Proof.
  unfold one_timer, timer_state_at, init. simpl.
  repeat split; intros; done.
Qed.

Lemma one_timer_pending self :
  one_timer self -> (length (pending self) <= 1)%nat.
Proof.
  intros (Hw & _ & _).
  assert (NoDup (pending self)) as Hnd.
  { unfold pending. apply NoDup_filter, NoDup_seq. }
  assert (forall a, a ∈ pending self -> timer self = Some a) as Hin.
  { intros a Ha. unfold pending in Ha.
    apply list_elem_of_filter in Ha as [Ha _]. by apply Hw. }
  destruct (pending self) as [|a [|b l]]; simpl; [lia | lia |].
  exfalso.
  assert (a = b) as ->.
  { pose proof (Hin a ltac:(left)) as Ha.
    pose proof (Hin b ltac:(right; left)) as Hb. congruence. }
  apply NoDup_cons in Hnd as [Hnot _]. apply Hnot. left.
Qed.

(** Debounce, sequentially: from a new handler, under any schedule with
    atomic callbacks, at most one timer is pending. *)
Lemma atomic_schedule_pending normpath d fname sched :
  (length (pending (run (init normpath d fname) (atomic_schedule sched))) <= 1)%nat.
Proof.
  apply one_timer_pending, atomic_schedule_one_timer, init_one_timer.
Qed.

End DebounceFacts.

(** * Further properties *)

(** ** JuriggedHandler *)

Section HandlerExtras.

Import JuriggedHandler.

(** X1.  A file event that is delivered twice with the same path and
    modification time acts once: the second delivery changes nothing (no
    second timer, no second refresh). *)
Theorem on_modified_repeated self p m :
  on_modified (on_modified self p m) p m = on_modified self p m.
Proof.
  unfold on_modified at 2 3.
  destruct (String.eqb p (normalized_filename self)) eqn:Hp;
    [|unfold on_modified; by rewrite Hp].
  destruct (m =? mtime self)%Z eqn:Hm; simpl;
    [unfold on_modified; by rewrite Hp, Hm|].
  destruct (debounce_set (watcher_debounce self));
    unfold on_modified; simpl; by rewrite Hp, Z.eqb_refl.
Qed.


(** A timer is pending exactly when its state is [Waiting]. *)
Lemma elem_of_pending self a :
  a ∈ pending self <-> timer_state_at self a = Some Waiting.
Proof.
  unfold pending. rewrite list_elem_of_filter, elem_of_seq.
  split; [by intros [? _]|].
  intros Ha. split; [done|].
  unfold timer_state_at in Ha.
  destruct (timers self !! a) eqn:Hl; [|done].
  apply lookup_lt_Some in Hl. lia.
Qed.

Lemma pending_NoDup self : NoDup (pending self).
Proof. unfold pending. apply NoDup_filter, NoDup_seq. Qed.

Lemma pending_nil self :
  (forall a, timer_state_at self a <> Some Waiting) -> pending self = [].
Proof.
  intros Hno. destruct (pending self) as [|a l] eqn:Hp; [done|].
  exfalso. apply (Hno a), elem_of_pending. rewrite Hp. left.
Qed.

Lemma pending_singleton self k :
  (forall a, timer_state_at self a = Some Waiting <-> a = k) ->
  pending self = [k].
Proof.
  intros Hk. pose proof (pending_NoDup self) as Hnd.
  assert (forall a, a ∈ pending self <-> a = k) as Hin.
  { intros a. by rewrite elem_of_pending. }
  destruct (pending self) as [|a [|b l]].
  - exfalso. by apply (elem_of_nil k), Hin.
  - f_equal. apply Hin. left.
  - exfalso. apply NoDup_cons in Hnd as [Hnot _]. apply Hnot.
    assert (a = k) as -> by (apply Hin; left).
    assert (b = k) as -> by (apply Hin; right; left).
    left.
Qed.

(** The states of the timers in the middle of a burst. *)
Lemma bursting_states d k a (last : timer_state) :
  state <$> (replicate k (TimerObj d Cancelled) ++ [TimerObj d last]) !! a
  = if decide (a < k)%nat then Some Cancelled
    else if decide (a = k) then Some last else None.
Proof.
  destruct (decide (a < k)%nat) as [Hlt|Hge].
  - rewrite lookup_app_l by (by rewrite length_replicate).
    by rewrite lookup_replicate_2.
  - rewrite lookup_app_r by (rewrite length_replicate; lia).
    rewrite length_replicate.
    destruct (decide (a = k)) as [->|Hne].
    + by rewrite Nat.sub_diag.
    + destruct (a - k)%nat as [|n] eqn:Hn; [lia|]. by destruct n.
Qed.

(** The first event of a burst starts timer 0. *)
Lemma burst_first normpath d fname m :
  d <> 0%Z -> m <> 0%Z ->
  bursting d fname (normpath fname) m 0
    (on_modified (init normpath (Some d) fname) (normpath fname) m).
Proof.
  intros Hd Hm. unfold bursting, on_modified, init. simpl.
  rewrite String.eqb_refl.
  rewrite (proj2 (Z.eqb_neq m 0) Hm), (proj2 (Z.eqb_neq d 0) Hd).
  reflexivity.
Qed.

(** A further event cancels the waiting timer and starts the next. *)
Lemma burst_next d fname np m k self m' :
  d <> 0%Z -> m' <> m ->
  bursting d fname np m k self ->
  bursting d fname np m' (S k) (on_modified self np m').
Proof.
  intros Hd Hm ->. unfold bursting, on_modified. simpl.
  rewrite String.eqb_refl.
  rewrite (proj2 (Z.eqb_neq m' m) Hm), (proj2 (Z.eqb_neq d 0) Hd). simpl.
  assert (timer_cancel k
            (replicate k (TimerObj d Cancelled) ++ [TimerObj d Waiting])
          = replicate k (TimerObj d Cancelled) ++ [TimerObj d Cancelled])
    as ->.
  { unfold timer_cancel.
    rewrite lookup_app_r by (by rewrite length_replicate).
    rewrite length_replicate, Nat.sub_diag. simpl.
    pose proof (insert_app_r (replicate k (TimerObj d Cancelled))
                  [TimerObj d Waiting] 0 (TimerObj d Cancelled)) as Hins.
    rewrite length_replicate, Nat.add_0_r in Hins. exact Hins. }
  rewrite length_app, length_replicate. simpl. rewrite Nat.add_1_r.
  by rewrite app_comm_cons, replicate_cons_app.
Qed.

Lemma burst_rest d fname np ms :
  d <> 0%Z ->
  forall m k self,
    all_change m ms = true ->
    bursting d fname np m k self ->
    bursting d fname np (default m (last ms)) (k + length ms)
      (run self (burst np ms)).
Proof.
  intros Hd. induction ms as [|m' ms IH]; intros m k self Hch Hb; simpl.
  - by rewrite Nat.add_0_r.
  - simpl in Hch. apply andb_prop in Hch as [Hm Hch].
    apply negb_true_iff, Z.eqb_neq in Hm.
    pose proof (burst_next _ _ _ _ _ _ _ Hd Hm Hb) as Hb'.
    specialize (IH _ _ _ Hch Hb').
    replace (k + S (length ms))%nat with (S k + length ms)%nat by lia.
    replace (default m (last (m' :: ms))) with (default m' (last ms)).
    + exact IH.
    + destruct ms as [|m'' ms]; [done|].
      rewrite last_cons_cons.
      destruct (proj2 (last_is_Some (m'' :: ms)) ltac:(done)) as [x ->].
      done.
Qed.

(** A waiting timer that expires runs [_refresh] to its end. *)
Lemma fire_and_return self k :
  timer_state_at self k = Some Waiting ->
  run self [TimerFires k; TimerReturns k]
  = set_timer_state k Finished
      (_refresh_clear (_refresh_call (set_timer_state k Running self))).
Proof.
  intros Hk. unfold run. cbn [fold_left do_step]. rewrite Hk.
  assert (timer_state_at (_refresh_call (set_timer_state k Running self)) k
          = Some Running) as ->; [|done].
  change (timer_state_at (set_timer_state k Running self) k = Some Running).
  rewrite timer_state_at_set, decide_True by done. by rewrite Hk.
Qed.

(** X2.  Debounce: a burst of qualifying events for the watched file, with
    no timer expiring in between, leaves exactly one timer pending -- the
    one started by the last event -- and nothing has been refreshed; when
    that timer runs, the file is refreshed exactly once and no timer is
    left pending. *)
Theorem burst_refreshes_once normpath d fname m ms :
  d <> 0%Z -> all_change 0 (m :: ms) = true ->
  let h := run (init normpath (Some d) fname)
               (burst (normpath fname) (m :: ms)) in
  let h' := run h [TimerFires (length ms); TimerReturns (length ms)] in
  pending h = [length ms] /\ refreshed h = []
  /\ refreshed h' = [fname] /\ pending h' = [] /\ timer h' = None.
Proof.
  intros Hd Hch. simpl in Hch. apply andb_prop in Hch as [Hm Hch].
  apply negb_true_iff, Z.eqb_neq in Hm.
  pose proof (burst_rest _ _ _ _ Hd _ _ _ Hch
                (burst_first normpath d fname m Hd Hm)) as Hb.
  simpl in Hb. cbn zeta.
  change (run (init normpath (Some d) fname)
              (burst (normpath fname) (m :: ms)))
    with (run (on_modified (init normpath (Some d) fname)
                           (normpath fname) m)
              (burst (normpath fname) ms)).
  rewrite Hb. clear Hb.
  generalize (length ms) as k. intros k.
  split; [|split; [reflexivity|]].
  - apply pending_singleton. intros a.
    unfold timer_state_at. simpl.
    rewrite (bursting_states d k a Waiting).
    repeat case_decide; split; intros; try done; lia.
  - rewrite fire_and_return.
    2:{ unfold timer_state_at. simpl.
        rewrite (bursting_states d k k Waiting).
        by rewrite decide_False, decide_True by lia. }
    split; [reflexivity|]. split; [|reflexivity].
    apply pending_nil. intros a.
    rewrite timer_state_at_set.
    change (timer_state_at (_refresh_clear (_refresh_call ?x)) a)
      with (timer_state_at x a).
    rewrite timer_state_at_set.
    unfold timer_state_at. simpl.
    rewrite (bursting_states d k a Waiting).
    repeat case_decide; simpl; try done; lia.
Qed.

Lemma burst_refreshes_once_witness :
  pending (run (init (fun s => s) (Some 50%Z) "a.py")
               (burst "a.py" [1; 2; 3]%Z)) = [2].
Proof.
  apply (burst_refreshes_once (fun s => s) 50%Z "a.py" 1%Z [2; 3]%Z).
  - lia.
  - reflexivity.
Defined.

(** Without a debounce interval a qualifying event refreshes at once. *)
Lemma sync_next d fname np m r m' :
  debounce_set d = false -> m' <> m ->
  on_modified (Handler d fname np m None [] r) np m'
  = Handler d fname np m' None [] (r ++ [fname]).
Proof.
  intros Hd Hm. unfold on_modified. simpl.
  rewrite String.eqb_refl, (proj2 (Z.eqb_neq m' m) Hm), Hd.
  reflexivity.
Qed.

Lemma sync_rest d fname np ms :
  debounce_set d = false ->
  forall m r,
    all_change m ms = true ->
    run (Handler d fname np m None [] r) (burst np ms)
    = Handler d fname np (default m (last ms)) None []
              (r ++ replicate (length ms) fname).
Proof.
  intros Hd. induction ms as [|m' ms IH]; intros m r Hch; simpl.
  - by rewrite app_nil_r.
  - simpl in Hch. apply andb_prop in Hch as [Hm Hch].
    apply negb_true_iff, Z.eqb_neq in Hm.
    unfold run in *. simpl. rewrite (sync_next _ _ _ _ _ _ Hd Hm).
    rewrite (IH _ _ Hch), <- app_assoc. simpl.
    f_equal. destruct ms as [|m'' ms]; [done|].
    rewrite last_cons_cons.
    destruct (proj2 (last_is_Some (m'' :: ms)) ltac:(done)) as [x ->].
    done.
Qed.

(** X3.  Without a debounce interval ([None], [False] or zero) every
    qualifying event refreshes the file synchronously: after a burst of
    qualifying events the file has been refreshed once per event, and no
    timer has ever been created. *)
Theorem no_debounce_refreshes_each_event normpath d fname ms :
  debounce_set d = false -> all_change 0 ms = true ->
  let h := run (init normpath d fname) (burst (normpath fname) ms) in
  refreshed h = replicate (length ms) fname
  /\ timers h = [] /\ timer h = None /\ pending h = [].
Proof.
  intros Hd Hch. cbn zeta. unfold init.
  rewrite (sync_rest _ _ _ _ Hd _ _ Hch). simpl.
  by repeat split.
Qed.

Lemma no_debounce_refreshes_each_event_witness :
  refreshed (run (init (fun s => s) None "a.py") (burst "a.py" [1; 2; 3]%Z))
  = ["a.py"; "a.py"; "a.py"].
Proof.
  apply (no_debounce_refreshes_each_event (fun s => s) None "a.py" [1; 2; 3]%Z);
    reflexivity.
Defined.

(** A timer that is over stays as it is under every step. *)
Lemma timer_over_step self a s st :
  timer_state_at self a = Some s -> timer_over s ->
  timer_state_at (do_step self st) a = Some s.
Proof.
  intros Ha Hs.
  assert (s <> Waiting /\ s <> Running) as [Hw Hr].
  { destruct Hs as [-> | ->]; by split. }
  destruct st as [p m|b|b]; cbn [do_step].
  - unfold on_modified.
    destruct (String.eqb p (normalized_filename self)); [|done].
    destruct (negb (m =? mtime self)%Z); [|done]. simpl.
    destruct (debounce_set (watcher_debounce self)); [|done].
    unfold timer_state_at in *. simpl.
    set (ts := match timer self with
               | Some c => timer_cancel c (timers self)
               | None => timers self
               end).
    assert (state <$> ts !! a = Some s) as Hts.
    { subst ts. destruct (timer self) as [c|]; [|done].
      rewrite timer_cancel_state.
      destruct (decide (c = a)) as [->|]; [|done].
      rewrite Ha. by destruct s. }
    destruct (ts !! a) as [x|] eqn:Hx; [|done].
    by rewrite (lookup_app_l_Some _ _ _ _ Hx).
  - destruct (timer_state_at self b) as [[]|] eqn:Hb; try done.
    change (timer_state_at (set_timer_state b Running self) a = Some s).
    rewrite timer_state_at_set.
    destruct (decide (b = a)) as [->|]; [congruence|done].
  - destruct (timer_state_at self b) as [[]|] eqn:Hb; try done.
    rewrite timer_state_at_set.
    destruct (decide (b = a)) as [->|]; [congruence|done].
Qed.

(** X4.  A cancelled timer never fires and a timer never runs its
    callback twice: once a timer has been cancelled or has finished, it
    stays in that state under every later sequence of events, timer
    expiries and callback returns. *)
Theorem timer_over_stable sched :
  forall self a s,
    timer_state_at self a = Some s -> timer_over s ->
    timer_state_at (run self sched) a = Some s.
Proof.
  induction sched as [|st sched IH]; intros self a s Ha Hs; [done|].
  unfold run in *. simpl. apply IH; [|done].
  by apply timer_over_step.
Qed.

Lemma timer_over_stable_witness :
  timer_state_at
    (run (run ex_handler (burst "a.py" [1; 2]%Z))
         [TimerFires 0; Modified "a.py" 3%Z; TimerReturns 0]) 0
  = Some Cancelled.
Proof.
  apply (timer_over_stable
           [TimerFires 0; Modified "a.py" 3%Z; TimerReturns 0]
           (run ex_handler (burst "a.py" [1; 2]%Z)) 0 Cancelled).
  - reflexivity.
  - left. reflexivity.
Defined.

End HandlerExtras.

(** ** StackReviver, debugger dispatch and refresh *)

Section StackExtras.

Import StackReviver.

Lemma live_loop_opt_spec fr wc h prev :
  live_loop_opt fr wc h prev
  = (h ++ link_frames (length h) prev (kept_frames fr wc),
     link_last (length h) prev (kept_frames fr wc)).
Proof.
  unfold kept_frames. destruct fr as [f|]; simpl.
  - apply live_loop_spec.
  - by rewrite app_nil_r.
Qed.

(** X5.  Whatever the inputs, a call that returns has only allocated: the
    new heap is the old one followed by one traceback object per live
    frame that is not a wrapper frame, so every trace that could be read
    from the old heap -- the dead trace, or a hybrid trace built by an
    earlier retry -- reads the same from the new one. *)
Theorem create_undead_only_allocates h exc_tb fr wc h' new_tb n :
  _create_undead_traceback h exc_tb fr wc = Some (h', new_tb, n) ->
  h' = h ++ link_frames (length h) exc_tb (kept_frames fr wc)
  /\ length h' = (length h + length (kept_frames fr wc))%nat
  /\ forall tb l, tb_chain h tb l -> tb_chain h' tb l.
Proof.
  unfold _create_undead_traceback.
  destruct (dead_loop h (S (length h)) exc_tb (-1)) as [[c dead_tb]|];
    [|done].
  rewrite live_loop_opt_spec. intros [= <- _ _].
  split; [done|]. split.
  - by rewrite length_app, link_frames_length.
  - intros tb l. apply tb_chain_extend.
Qed.

Lemma create_undead_only_allocates_witness :
  length ex_hybrid_heap
  = (length ex_heap + length (kept_frames (Some ex_caller) 0))%nat.
Proof.
  exact (proj1 (proj2 (create_undead_only_allocates
                         ex_heap (Some 1) (Some ex_caller) 0
                         ex_hybrid_heap (Some 2) 0%Z eq_refl))).
Defined.

(** X6.  When there is no live frame to add -- no caller frame, or every
    caller frame runs the wrapper's code -- nothing is allocated and the
    hybrid trace is the dead trace itself. *)
Theorem no_live_frames_same_trace h exc_tb dead fr wc :
  tb_chain h exc_tb dead ->
  kept_frames fr wc = [] ->
  exists n, _create_undead_traceback h exc_tb fr wc = Some (h, exc_tb, n).
Proof.
  intros Hc Hk. eexists.
  rewrite (create_undead_traceback_eq _ _ _ fr wc Hc), Hk. simpl.
  by rewrite app_nil_r.
Qed.

Lemma no_live_frames_same_trace_witness :
  exists n,
    _create_undead_traceback ex_heap (Some 1) (Some ex_wrapper_frame) 0
    = Some (ex_heap, Some 1, n).
Proof.
  exact (no_live_frames_same_trace ex_heap (Some 1) ex_dead
           (Some ex_wrapper_frame) 0 ex_dead_chain eq_refl).
Defined.

(** X7.  The dead-frame count is never negative and never exceeds the
    number of dead frames. *)
Theorem dead_frame_count_bounds h exc_tb dead fr wc h' new_tb n :
  tb_chain h exc_tb dead ->
  _create_undead_traceback h exc_tb fr wc = Some (h', new_tb, n) ->
  (0 <= n <= Z.of_nat (length dead))%Z.
Proof.
  intros Hc. rewrite (create_undead_traceback_eq _ _ _ fr wc Hc).
  intros [= _ _ <-].
  unfold wrapper_bonus, deepest_is_wrapper.
  destruct dead as [|t dead]; simpl; [lia|].
  destruct (last (t :: dead)); [case_bool_decide|]; simpl length; lia.
Qed.

Lemma dead_frame_count_bounds_witness :
  (0 <= 0 <= Z.of_nat (length ex_dead))%Z.
Proof.
  exact (dead_frame_count_bounds ex_heap (Some 1) ex_dead (Some ex_caller) 0
           ex_hybrid_heap (Some 2) 0%Z ex_dead_chain eq_refl).
Defined.

End StackExtras.

Section DispatchExtras.

(** X8.  No backend looks at the dead-frame count: the post-mortem
    dispatch does the same whatever count it is given. *)
Theorem post_mortem_ignores_count E path ei n n' w :
  Debugger._start_post_mortem E path ei n w
  = Debugger._start_post_mortem E path ei n' w.
Proof.
  unfold Debugger._start_post_mortem.
  by repeat destruct (String.eqb _ _).
Qed.

(** X9.  The debugger chosen at import time is [pydevd] if that module is
    loaded, else [pudb] if that one is, else [pdb]; with a debugger chosen
    this way the dispatch always reaches that backend, never the
    unknown-debugger branch. *)
Theorem selected_debugger_dispatch in_sys_modules imp g path ei n w :
  let E := Debugger.Env (Debugger.select_debugger in_sys_modules) imp g in
  Debugger._start_post_mortem E path ei n w
  = if in_sys_modules "pydevd"
    then Debugger._start_pydevd_post_mortem E path ei w
    else if in_sys_modules "pudb"
    then Debugger._start_pudb_post_mortem E path ei w
    else Debugger._start_pdb_post_mortem E path ei n w.
Proof.
  cbn zeta. unfold Debugger._start_post_mortem, Debugger.select_debugger.
  simpl.
  destruct (in_sys_modules "pydevd"); [reflexivity|].
  destruct (in_sys_modules "pudb"); reflexivity.
Qed.

(** X11.  A path that the registry does not know is reported through the
    registry's logger and nothing else happens: no subscriber is called,
    nothing is refreshed and nothing is raised. *)
Theorem refresh_unregistered (self : Watcher.t) path w :
  Watcher.registry_get (Watcher.registry self) path = None ->
  Watcher.refresh self path w
  = Some (Ok tt, logged (LogMsg "Could not find {path} in registry" path) w).
Proof. intros Hget. unfold Watcher.refresh. by rewrite Hget. Qed.

Lemma refresh_unregistered_witness :
  Watcher.refresh
    {| Watcher.registry := {| Watcher.registry_get := fun _ => None |};
       Watcher.debounce := None;
       Watcher.prerun := [raising_subscriber ValueError];
       Watcher.postrun := [] |}
    (Some "b.py") empty_world
  = Some (Ok tt,
          logged (LogMsg "Could not find {path} in registry" (Some "b.py"))
                 empty_world).
Proof.
  apply (refresh_unregistered
           {| Watcher.registry := {| Watcher.registry_get := fun _ => None |};
              Watcher.debounce := None;
              Watcher.prerun := [raising_subscriber ValueError];
              Watcher.postrun := [] |}
           (Some "b.py") empty_world).
  reflexivity.
Defined.

End DispatchExtras.

(** ** The wrappers, further *)

Section CallExtras.

Import HotRestart.

Lemma wrapped_loop_step E cl wi fuel k w :
  w_EXIT_THIS_FRAME w = false ->
  wrapped_loop E cl wi (S fuel) k w
  = match wrapped_body E cl wi k w with
    | None => None
    | Some (Ok (Some v), w') => Some (Ok v, w')
    | Some (Ok None, w') => wrapped_loop E cl wi fuel (S k) w'
    | Some (Raise e, w') => Some (Raise e, w')
    end.
Proof.
  intros Hflag. cbn [wrapped_loop].
  unfold bind at 1. unfold get_EXIT_THIS_FRAME. rewrite Hflag.
  unfold bind at 1.
  destruct (wrapped_body E cl wi k w) as [[[[v|]|e] w']|]; reflexivity.
Qed.

(** Both wrappers start their loop with the exit flag reset; the
    asynchronous one runs it as the body of a coroutine. *)
Lemma wrapped_eq E cl fuel w :
  wrapped E cl fuel w
  = wrapped_loop E cl (watch_instance E) fuel 0
      (World (w_objects w) (w_tb_heap w) (w_events w) false).
Proof. reflexivity. Qed.

Lemma wrapped_async_eq E cl fuel w :
  wrapped_async E cl fuel w
  = coroutine (wrapped_async_loop E cl (watch_instance E) fuel 0)
      (World (w_objects w) (w_tb_heap w) (w_events w) false).
Proof. reflexivity. Qed.

Lemma wrapped_body_returns E cl wi k w v :
  behaviour E (cl_func cl) k = Returns v ->
  wrapped_body E cl wi k w = Some (Ok (Some v), executed (cl_func cl) k w).
Proof.
  intros Hb. unfold wrapped_body.
  erewrite bind_ok by reflexivity. by rewrite Hb.
Qed.

Lemma wrapped_async_body_returns E cl wi k w v :
  behaviour E (cl_func cl) k = Returns v ->
  wrapped_async_body E cl wi k w
  = Some (Ok (Some v), executed (cl_func cl) k w).
Proof.
  intros Hb. unfold wrapped_async_body.
  erewrite bind_ok by reflexivity. by rewrite Hb.
Qed.

Lemma wrapped_body_base_exception E cl wi k w e tb :
  behaviour E (cl_func cl) k = Raises e tb ->
  isinstance e "Exception" = false ->
  wrapped_body E cl wi k w = Some (Raise e, executed (cl_func cl) k w).
Proof.
  intros Hb He. unfold wrapped_body.
  erewrite bind_ok by reflexivity. by rewrite Hb, He.
Qed.

Lemma wrapped_async_body_base_exception E cl wi k w e tb :
  behaviour E (cl_func cl) k = Raises e tb ->
  isinstance e "Exception" = false ->
  wrapped_async_body E cl wi k w = Some (Raise e, executed (cl_func cl) k w).
Proof.
  intros Hb He. unfold wrapped_async_body.
  erewrite bind_ok by reflexivity. by rewrite Hb, He.
Qed.

(** X12.  A wrapper is transparent for a call that succeeds: when the
    wrapped callable returns, either wrapper returns that value after this
    one execution, with no debugger call and no refresh. *)
Theorem wrapper_returns_result E cl fuel w v :
  behaviour E (cl_func cl) 0 = Returns v ->
  wrapped E cl (S fuel) w = Some (Ok v, called (cl_func cl) 0 w)
  /\ wrapped_async E cl (S fuel) w = Some (Ok v, called (cl_func cl) 0 w).
Proof.
  intros Hb. split.
  - rewrite wrapped_eq, wrapped_loop_step by done.
    by rewrite (wrapped_body_returns _ _ _ _ _ _ Hb).
  - rewrite wrapped_async_eq. apply coroutine_ok.
    rewrite wrapped_async_loop_step by done.
    by rewrite (wrapped_async_body_returns _ _ _ _ _ _ Hb).
Qed.

Lemma wrapper_returns_result_witness :
  wrapped returning_env ex_propagating_closure 1 ex_world
  = Some (Ok (VInt 7), called 0 0 ex_world).
Proof.
  apply (wrapper_returns_result returning_env ex_propagating_closure 0
           ex_world (VInt 7)).
  reflexivity.
Defined.

(** X13.  An exception that is not an [Exception] (an interrupt, an exit
    request) is never handled: either wrapper lets it through to the
    caller after the one execution, whatever the propagated set and also
    when propagation of keyboard interrupts is switched off. *)
Theorem base_exception_passes_through E cl fuel w e tb :
  behaviour E (cl_func cl) 0 = Raises e tb ->
  isinstance e "Exception" = false ->
  wrapped E cl (S fuel) w = Some (Raise e, called (cl_func cl) 0 w)
  /\ wrapped_async E cl (S fuel) w = Some (Raise e, called (cl_func cl) 0 w).
Proof.
  intros Hb He. split.
  - rewrite wrapped_eq, wrapped_loop_step by done.
    by rewrite (wrapped_body_base_exception _ _ _ _ _ _ _ Hb He).
  - assert (is_StopIteration e = false) as Hs.
    { unfold is_StopIteration. by rewrite He, andb_false_r. }
    rewrite wrapped_async_eq.
    erewrite coroutine_raise.
    2:{ rewrite wrapped_async_loop_step by done.
        by rewrite (wrapped_async_body_base_exception _ _ _ _ _ _ _ Hb He). }
    by rewrite Hs.
Qed.

Lemma base_exception_passes_through_witness :
  wrapped interrupted_env ex_no_interrupt_closure 1 ex_world
  = Some (Raise KeyboardInterrupt, called 0 0 ex_world)
  /\ wrapped_async interrupted_env ex_no_interrupt_closure 1 ex_world
     = Some (Raise KeyboardInterrupt, called 0 0 ex_world).
Proof.
  apply (base_exception_passes_through interrupted_env
           ex_no_interrupt_closure 0 ex_world KeyboardInterrupt (Some 1));
    reflexivity.
Defined.

(** X14.  A synchronous wrapper (one whose [wrapped_async] cell is empty,
    as [hot_restart_wrap] leaves it) executes the wrapped callable exactly
    once per call, whatever the callable does: it returns the callable's
    value, hands on an exception that is propagated or is not an
    [Exception], and raises [NameError] for any other exception.  It never
    reaches the debugger or the refresh. *)
Theorem sync_wrapper_runs_once E cl fuel w :
  cl_wrapped_async cl = None ->
  wrapped E cl (S fuel) w
  = Some (sync_result cl (behaviour E (cl_func cl) 0),
          called (cl_func cl) 0 w).
Proof.
  intros Hcell. rewrite wrapped_eq, wrapped_loop_step by done.
  unfold sync_result, enters_recovery.
  destruct (behaviour E (cl_func cl) 0) as [v|e tb] eqn:Hb.
  - by rewrite (wrapped_body_returns _ _ _ _ _ _ Hb).
  - destruct (isinstance e "Exception") eqn:He; simpl.
    + destruct (isinstance_any e (cl_propagated_exceptions cl)) eqn:Hp; simpl.
      { by rewrite (wrapped_body_propagates _ _ _ _ _ _ _ Hb (or_introl Hp)). }
      destruct (cl_propagate_keyboard_interrupt cl
                && isinstance e "KeyboardInterrupt") eqn:Hk; simpl.
      { apply andb_prop in Hk.
        by rewrite (wrapped_body_propagates _ _ _ _ _ _ _ Hb (or_intror Hk)). }
      by rewrite (wrapped_body_NameError _ _ _ _ _ _ _ Hb
                    (conj He (conj Hp Hk)) Hcell).
    + by rewrite (wrapped_body_base_exception _ _ _ _ _ _ _ Hb He).
Qed.

Lemma sync_wrapper_runs_once_witness :
  wrapped (ex_env None) ex_propagating_closure 3 ex_world
  = Some (Raise NameError, called 0 0 ex_world).
Proof.
  apply (sync_wrapper_runs_once (ex_env None) ex_propagating_closure 2
           ex_world).
  reflexivity.
Defined.

(** X15.  Retry in the asynchronous wrapper.  When an execution raises an
    exception that is recovered, the post-mortem session ends and the
    active watcher's refresh returns, the wrapper looks at the exit flag:
    if it is clear, the callable is executed again from scratch and, if it
    now returns, the wrapper returns that value; if the flag has been set
    meanwhile, the wrapper returns [None] without another execution. *)
Theorem async_retry E cl fuel k w e tb dead wa o c w1 W w2 :
  behaviour E (cl_func cl) k = Raises e tb ->
  recovered cl e ->
  cl_wrapped_async cl = Some wa ->
  w_objects w !! wa = Some o -> function_code o = Some c ->
  tb_chain (w_tb_heap w) tb dead ->
  w_EXIT_THIS_FRAME w = false ->
  Debugger._start_post_mortem (debugger E) (cl_module_file_path cl)
    (e, hybrid_tb w tb (caller_frame E) c) (hybrid_count dead c)
    (at_session (cl_func cl) k w tb (caller_frame E) c)
  = Some (Ok tt, w1) ->
  Watcher.refresh W (cl_module_file_path cl) w1 = Some (Ok tt, w2) ->
  (forall v,
     w_EXIT_THIS_FRAME w2 = false ->
     behaviour E (cl_func cl) (S k) = Returns v ->
     wrapped_async_loop E cl (Some W) (S (S fuel)) k w
     = Some (Ok v, executed (cl_func cl) (S k) w2))
  /\ (w_EXIT_THIS_FRAME w2 = true ->
      wrapped_async_loop E cl (Some W) (S (S fuel)) k w
      = Some (Ok VNone, w2)).
Proof.
  intros Hb Hr Hcell Ho Hc Hch Hflag Hpm Href.
  assert (wrapped_async_loop E cl (Some W) (S (S fuel)) k w
          = wrapped_async_loop E cl (Some W) (S fuel) (S k) w2) as ->.
  { rewrite (wrapped_async_loop_step _ _ _ _ _ _ Hflag),
      (wrapped_async_body_recovers _ _ _ _ _ _ _ _ _ _ _ _
         Hb Hr Hcell Ho Hc Hch Hpm).
    unfold bind, watch_instance_refresh. by rewrite Href. }
  split.
  - intros v Hflag2 Hret.
    rewrite (wrapped_async_loop_step _ _ _ _ _ _ Hflag2).
    by rewrite (wrapped_async_body_returns _ _ _ _ _ _ Hret).
  - intros Hflag2. cbn [wrapped_async_loop].
    unfold bind, get_EXIT_THIS_FRAME. by rewrite Hflag2.
Qed.

Lemma async_retry_witness :
  exists w',
    wrapped_async_loop (ex_env (Some ex_watcher)) ex_async_closure
      (Some ex_watcher) 2 0 ex_wrapped_world
    = Some (Ok (VInt 7), w').
Proof.
  eexists.
  eapply (proj1 (async_retry (ex_env (Some ex_watcher)) ex_async_closure 0 0
                   ex_wrapped_world ValueError (Some 1) ex_dead 4 _ 1 _
                   ex_watcher _
                   eq_refl (conj eq_refl (conj eq_refl eq_refl))
                   eq_refl eq_refl eq_refl ex_dead_chain eq_refl
                   eq_refl eq_refl)).
  - reflexivity.
  - reflexivity.
Defined.

End CallExtras.

(** ** hot_restart_wrap, further *)

Section WrapExtras.

Import HotRestart.

Lemma dict_get_set_ne d k k' v :
  k' <> k -> dict_get (dict_set d k' v) k = dict_get d k.
Proof.
  intros Hne. induction d as [|[k0 v0] d IH]; simpl.
  - by rewrite (proj2 (String.eqb_neq k' k) Hne).
  - destruct (String.eqb k0 k') eqn:H0; simpl.
    + apply String.eqb_eq in H0 as ->.
      by rewrite (proj2 (String.eqb_neq k' k) Hne).
    + destruct (String.eqb k0 k); [done|exact IH].
Qed.

Lemma dict_get_None d k : k ∉ map fst d -> dict_get d k = None.
Proof.
  induction d as [|[k0 v0] d IH]; simpl; [done|].
  intros Hnot. apply not_elem_of_cons in Hnot as [Hne Hnot].
  rewrite (proj2 (String.eqb_neq k0 k)) by congruence. by apply IH.
Qed.

(** [dict.update] with a dictionary: its entries win, the others stay. *)
Lemma dict_get_update other :
  NoDup (map fst other) ->
  forall acc k,
    dict_get (dict_update acc other) k
    = match dict_get other k with
      | Some v => Some v
      | None => dict_get acc k
      end.
Proof.
  unfold dict_update.
  induction other as [|[k0 v0] other IH]; intros Hnd acc k; simpl; [done|].
  apply NoDup_cons in Hnd as [Hnot Hnd]. simpl in Hnot.
  rewrite (IH Hnd). simpl.
  destruct (String.eqb k0 k) eqn:Hk.
  - apply String.eqb_eq in Hk as <-.
    by rewrite (dict_get_None _ _ Hnot), dict_get_set.
  - apply String.eqb_neq in Hk.
    by rewrite (dict_get_set_ne _ _ _ _ Hk).
Qed.



(** X17.  The mark is put on the wrapper, never on the callable that is
    wrapped: wrapping an unmarked callable whose module [inspect] finds
    leaves the callable exactly as it was, so wrapping the same callable
    again builds a second, distinct wrapper rather than returning the
    first. *)
Theorem original_stays_unmarked w f fo pe pki :
  w_objects w !! f = Some fo -> is_class fo = false -> marked fo = false ->
  ob_module fo <> NoModule ->
  exists w1 w2,
    hot_restart_wrap (Some f) pe pki w
    = Some (Ok (VRef (length (w_objects w))), w1)
    /\ w_objects w1 !! f = Some fo
    /\ hot_restart_wrap (Some f) pe pki w1
       = Some (Ok (VRef (S (length (w_objects w)))), w2)
    /\ w_objects w2 !! f = Some fo
    /\ length (w_objects w2) = S (S (length (w_objects w))).
Proof.
  intros Hf Hc Hm Hmod.
  pose proof (wrap_unmarked w f fo pe pki Hf Hc Hm Hmod) as H1.
  set (w1 := World (w_objects w ++ [new_wrapper w f fo pe pki])
                   (w_tb_heap w) (w_events w) (w_EXIT_THIS_FRAME w)) in *.
  assert (w_objects w1 !! f = Some fo) as Hf1.
  { simpl. by apply lookup_app_l_Some. }
  pose proof (wrap_unmarked w1 f fo pe pki Hf1 Hc Hm Hmod) as H2.
  exists w1. eexists. split; [exact H1|]. split; [exact Hf1|].
  split.
  - rewrite H2. simpl. rewrite length_app. simpl.
    by rewrite Nat.add_1_r.
  - simpl. split.
    + apply lookup_app_l_Some. by apply lookup_app_l_Some.
    + rewrite !length_app. simpl. lia.
Qed.

Lemma original_stays_unmarked_witness :
  exists w1 w2,
    hot_restart_wrap (Some 0) [] true ex_world
    = Some (Ok (VRef (length (w_objects ex_world))), w1)
    /\ w_objects w1 !! 0 = Some (PyObj (KFunction 20) [] (ModuleFile "/m.py") None)
    /\ hot_restart_wrap (Some 0) [] true w1
       = Some (Ok (VRef (S (length (w_objects ex_world)))), w2)
    /\ w_objects w2 !! 0 = Some (PyObj (KFunction 20) [] (ModuleFile "/m.py") None)
    /\ length (w_objects w2) = S (S (length (w_objects ex_world))).
Proof.
  apply (original_stays_unmarked ex_world 0 _ [] true
           eq_refl eq_refl eq_refl).
  discriminate.
Defined.

(** X18.  Used with keyword arguments only, [hot_restart_wrap] returns a
    partial application of itself and touches nothing else; calling that
    object with an unmarked callable whose module [inspect] finds wraps
    it with exactly those keyword arguments. *)
Theorem decorator_factory w f fo pe pki :
  w_objects w !! f = Some fo -> is_class fo = false -> marked fo = false ->
  ob_module fo <> NoModule ->
  let p := length (w_objects w) in
  let w1 := with_object w (PyObj (KPartial pe pki) [] functools_module None) in
  hot_restart_wrap None pe pki w = Some (Ok (VRef p), w1)
  /\ call_partial p (Some f) w1
     = Some (Ok (VRef (S p)), with_object w1 (new_wrapper w1 f fo pe pki)).
Proof.
  intros Hf Hc Hm Hmod. cbn zeta. split; [reflexivity|].
  unfold call_partial.
  erewrite bind_ok.
  2:{ apply deref_eq. simpl. by rewrite lookup_app_r, Nat.sub_diag. }
  simpl.
  rewrite (wrap_unmarked _ f fo pe pki); try done.
  - simpl. rewrite length_app. simpl. by rewrite Nat.add_1_r.
  - simpl. by apply lookup_app_l_Some.
Qed.

Lemma decorator_factory_witness :
  hot_restart_wrap None ["KeyError"] false ex_world
  = Some (Ok (VRef 4),
          with_object ex_world
            (PyObj (KPartial ["KeyError"] false) [] functools_module None))
  /\ call_partial 4 (Some 0)
       (with_object ex_world
          (PyObj (KPartial ["KeyError"] false) [] functools_module None))
     = Some (Ok (VRef 5),
             with_object
               (with_object ex_world
                  (PyObj (KPartial ["KeyError"] false) [] functools_module
                         None))
               (new_wrapper
                  (with_object ex_world
                     (PyObj (KPartial ["KeyError"] false) [] functools_module
                            None))
                  0 (PyObj (KFunction 20) [] (ModuleFile "/m.py") None)
                  ["KeyError"] false)).
Proof.
  apply (decorator_factory ex_world 0 _ ["KeyError"] false
           eq_refl eq_refl eq_refl).
  discriminate.
Defined.

End WrapExtras.

(** ** hot_restart_wrap_class on a class without nested classes *)

Section ClassExtras.

Import HotRestart.

Lemma dict_get_elem_of d k v : dict_get d k = Some v -> k ∈ map fst d.
Proof.
  induction d as [|[k0 v0] d IH]; simpl; [done|].
  destruct (String.eqb k0 k) eqn:Hk.
  - apply String.eqb_eq in Hk as ->. intros _. left.
  - intros Hd. right. by apply IH.
Qed.

(** Assignment to an existing key keeps the keys and their order. *)
Lemma dict_set_keys d k v :
  k ∈ map fst d -> map fst (dict_set d k v) = map fst d.
Proof.
  induction d as [|[k0 v0] d IH]; simpl; intros Hin.
  - by apply elem_of_nil in Hin.
  - destruct (String.eqb k0 k) eqn:Hk; simpl.
    + apply String.eqb_eq in Hk as ->. done.
    + f_equal. apply IH. apply elem_of_cons in Hin as [->|Hin]; [|done].
      by rewrite String.eqb_refl in Hk.
Qed.

Lemma callable_eq w v :
  member_ok (w_objects w) v ->
  callable v w = Some (Ok (callable_in (w_objects w) v), w).
Proof.
  destruct v as [| | | |a]; try reflexivity.
  intros (o & Ho & _). unfold callable. simpl.
  by rewrite (bind_ok _ _ _ _ _ (deref_eq _ _ _ Ho)), Ho.
Qed.

(** A member that is not callable is passed over. *)
Lemma wrap_items_skip cls k v rest w :
  member_ok (w_objects w) v -> callable_in (w_objects w) v = false ->
  wrap_items cls ((k, v) :: rest) w = wrap_items cls rest w.
Proof.
  intros Hok Hc. cbn [wrap_items].
  rewrite (bind_ok _ _ _ _ _ (callable_eq _ _ Hok)), Hc.
  by erewrite bind_ok by reflexivity.
Qed.

(** A callable member is replaced by a marked callable. *)
Lemma wrap_items_wrap cls c k a o rest w :
  w_objects w !! cls = Some c -> is_class c = true ->
  w_objects w !! a = Some o -> is_class o = false ->
  callable_kind (ob_kind o) = true ->
  (marked o = false -> ob_module o <> NoModule) ->
  exists objs0 x ox,
    wrap_items cls ((k, VRef a) :: rest) w
    = wrap_items cls rest
        (World (<[cls := PyObj (ob_kind c) (dict_set (ob_dict c) k (VRef x))
                               (ob_module c) (ob_closure c)]> objs0)
               (w_tb_heap w) (w_events w) (w_EXIT_THIS_FRAME w))
    /\ (forall b ob, w_objects w !! b = Some ob -> objs0 !! b = Some ob)
    /\ objs0 !! x = Some ox /\ marked ox = true /\ is_class ox = false
    /\ (x = a \/ exists cl, ob_closure ox = Some cl /\ cl_func cl = a).
Proof.
  intros Hcls Hcc Ha Hoc Hcall Hmod. cbn [wrap_items].
  assert (member_ok (w_objects w) (VRef a)) as Hok
    by (exists o; repeat split; auto).
  rewrite (bind_ok _ _ _ _ _ (callable_eq _ _ Hok)). simpl. rewrite Ha, Hcall.
  destruct (marked o) eqn:Hm.
  - exists (w_objects w), a, o.
    erewrite (bind_ok (bind _ _)).
    2:{ erewrite bind_ok by (by eapply wrap_marked).
        by apply setattr_eq. }
    repeat split; eauto.
  - exists (w_objects w ++ [new_wrapper w a o default_propagated_exceptions
                              default_propagate_keyboard_interrupt]),
           (length (w_objects w)),
           (new_wrapper w a o default_propagated_exceptions
              default_propagate_keyboard_interrupt).
    destruct (new_wrapper_marked w a o default_propagated_exceptions
                default_propagate_keyboard_interrupt) as [Hnm Hnc].
    erewrite (bind_ok (bind _ _)).
    2:{ erewrite bind_ok by (eapply wrap_unmarked; eauto).
        apply setattr_eq. simpl. by apply lookup_app_l_Some. }
    simpl. repeat split; eauto.
    + intros b ob Hb. by apply lookup_app_l_Some.
    + by rewrite lookup_app_r, Nat.sub_diag.
    + right. unfold new_wrapper. destruct (ob_kind o); simpl; eauto.
Qed.

(** Whether a member is callable does not change while the others are
    wrapped. *)
Lemma callable_in_stable objs objs' v :
  member_ok objs v ->
  (forall a o, v = VRef a -> objs !! a = Some o -> objs' !! a = Some o) ->
  callable_in objs' v = callable_in objs v.
Proof.
  destruct v as [| | | |a]; try reflexivity.
  intros (o & Ho & _) Hext. simpl. by rewrite Ho, (Hext a o eq_refl Ho).
Qed.

Lemma wrapped_member_skip objs objs' v :
  callable_in objs v = false -> wrapped_member objs objs' v v.
Proof.
  intros Hc. unfold wrapped_member. destruct v; try done. by rewrite Hc.
Qed.

(** The loop of [hot_restart_wrap_class] over members none of which is a
    class. *)
Lemma wrap_items_ok cls items :
  forall w c,
    w_objects w !! cls = Some c -> is_class c = true ->
    NoDup (map fst items) ->
    (forall k v, (k, v) ∈ items -> dict_get (ob_dict c) k = Some v) ->
    (forall k v, (k, v) ∈ items -> member_ok (w_objects w) v) ->
    exists w' c',
      wrap_items cls items w = Some (Ok tt, w')
      /\ members_wrapped cls items w c w' c'.
Proof.
  induction items as [|[k0 v0] rest IH]; intros w c Hcls Hcc Hnd Hget Hok.
  - exists w, c. split; [reflexivity|].
    repeat split; try done.
    intros k v Hin. by apply elem_of_nil in Hin.
  - simpl in Hnd. apply NoDup_cons in Hnd as [Hk0 Hnd].
    assert (member_ok (w_objects w) v0) as Hok0 by (apply (Hok k0); left).
    assert (dict_get (ob_dict c) k0 = Some v0) as Hget0 by (apply Hget; left).
    assert (forall k v, (k, v) ∈ rest -> k <> k0) as Hne.
    { intros k v Hin ->. apply Hk0.
      apply list_elem_of_fmap. by exists (k0, v). }
    destruct (callable_in (w_objects w) v0) eqn:Hcall.
    + (* the member is wrapped *)
      destruct v0 as [| | | |a]; try discriminate Hcall.
      destruct Hok0 as (o & Ho & Hoc & Hmod0).
      simpl in Hcall. rewrite Ho in Hcall.
      destruct (wrap_items_wrap cls c k0 a o rest w Hcls Hcc Ho Hoc Hcall
                  (Hmod0 Hcall))
        as (objs0 & x & ox & Heq & Hext & Hx & Hxm & Hxc & Hxt).
      set (c1 := PyObj (ob_kind c) (dict_set (ob_dict c) k0 (VRef x))
                       (ob_module c) (ob_closure c)) in *.
      set (w1 := World (<[cls := c1]> objs0) (w_tb_heap w) (w_events w)
                       (w_EXIT_THIS_FRAME w)) in *.
      assert (x <> cls) as Hxcls.
      { intros ->. rewrite (Hext _ _ Hcls) in Hx. congruence. }
      assert (w_objects w1 !! cls = Some c1) as Hcls1.
      { simpl. apply list_lookup_insert_eq.
        eapply lookup_lt_Some. by apply Hext. }
      assert (forall b ob, b <> cls -> w_objects w !! b = Some ob ->
                           w_objects w1 !! b = Some ob) as Hext1.
      { intros b ob Hb Hlb. simpl.
        rewrite list_lookup_insert_ne by done. by apply Hext. }
      assert (forall b ob, ob_kind ob <> KClass ->
                w_objects w !! b = Some ob -> b <> cls) as Hnc.
      { intros b ob Hkind Hlb ->. rewrite Hcls in Hlb.
        injection Hlb as <-. unfold is_class in Hcc.
        by destruct (ob_kind c). }
      assert (forall v, member_ok (w_objects w) v ->
                forall b ob, v = VRef b -> w_objects w !! b = Some ob ->
                             w_objects w1 !! b = Some ob) as Hmem.
      { intros v Hv b ob -> Hlb. apply Hext1; [|done].
        destruct Hv as (ob' & Hlb' & Hcl' & _).
        rewrite Hlb in Hlb'. injection Hlb' as <-.
        eapply Hnc; [|exact Hlb]. unfold is_class in Hcl'.
        by destruct (ob_kind ob). }
      destruct (IH w1 c1 Hcls1 Hcc Hnd) as (w' & c' & Hrun & Hmw).
      { intros k v Hin. simpl.
        rewrite dict_get_set_ne by (intros ->; by eapply Hne).
        apply Hget. by right. }
      { intros k v Hin.
        assert (member_ok (w_objects w) v) as Hv by (apply (Hok k); by right).
        destruct v as [| | | |b]; try done.
        destruct Hv as (ob & Hlb & Hcl). exists ob. split; [|done].
        eapply Hmem; [|reflexivity|exact Hlb]. simpl. eauto. }
      destruct Hmw as (Hl' & Hc' & Hkeys & Hout & Hin' & Hpres & Hh & He & Hf).
      exists w', c'. split; [by rewrite Heq|].
      repeat split; try done.
      * rewrite Hkeys. simpl. apply dict_set_keys.
        by eapply dict_get_elem_of.
      * intros k Hk. apply not_elem_of_cons in Hk as [Hk Hkr].
        rewrite (Hout k Hkr). simpl. by rewrite dict_get_set_ne.
      * intros k v Hin. apply elem_of_cons in Hin as [[= -> ->]|Hin].
        -- exists (VRef x). split.
           ++ rewrite (Hout k0 Hk0). simpl. apply dict_get_set.
           ++ simpl. rewrite Ho, Hcall.
              exists x, ox. repeat split; try done.
              apply Hpres; [done|]. simpl.
              by rewrite list_lookup_insert_ne.
        -- destruct (Hin' k v Hin) as (v' & Hgv & Hwm).
           exists v'. split; [done|].
           assert (member_ok (w_objects w) v) as Hv
             by (apply (Hok k); by right).
           unfold wrapped_member in *.
           destruct v as [| | | |b]; try done.
           rewrite (callable_in_stable (w_objects w) (w_objects w1)) in Hwm;
             [done|done|].
           intros b' ob' [= <-] Hlb. by eapply Hmem.
      * intros b ob Hb Hlb. apply Hpres; [done|]. by apply Hext1.
    + (* the member is passed over *)
      rewrite (wrap_items_skip _ _ _ _ _ Hok0 Hcall).
      destruct (IH w c Hcls Hcc Hnd) as (w' & c' & Hrun & Hmw).
      { intros k v Hin. apply Hget. by right. }
      { intros k v Hin. apply (Hok k). by right. }
      destruct Hmw as (Hl' & Hc' & Hkeys & Hout & Hin' & Hpres & Hh & He & Hf).
      exists w', c'. split; [done|].
      repeat split; try done.
      * intros k Hk. apply not_elem_of_cons in Hk as [Hk Hkr]. by apply Hout.
      * intros k v Hin. apply elem_of_cons in Hin as [[= -> ->]|Hin].
        -- exists v0. split.
           ++ by rewrite (Hout k0 Hk0).
           ++ by apply wrapped_member_skip.
        -- by apply Hin'.
Qed.

(** X19.  For a class whose members have distinct names, none of whose
    members is itself a class and each of whose unmarked callable members
    has a module that [inspect] finds, [hot_restart_wrap_class] returns
    normally.  Afterwards the class has the same member names in the same
    order; under each name that held a callable there is a marked
    callable -- the member itself if it was already marked, else a new
    wrapper around it; every other member is unchanged, and so is every
    object other than the class. *)
Theorem wrap_class_wraps_members w cls c :
  w_objects w !! cls = Some c -> is_class c = true ->
  NoDup (map fst (ob_dict c)) ->
  (forall k v, (k, v) ∈ ob_dict c -> member_ok (w_objects w) v) ->
  exists w' c',
    hot_restart_wrap_class cls w = Some (Ok tt, w')
    /\ members_wrapped cls (ob_dict c) w c w' c'.
Proof.
  intros Hcls Hcc Hnd Hok. unfold hot_restart_wrap_class.
  rewrite (bind_ok _ _ _ _ _ (deref_eq _ _ _ Hcls)).
  apply wrap_items_ok; try done.
  clear Hok. induction (ob_dict c) as [|[k0 v0] d IH]; intros k v Hin.
  - by apply elem_of_nil in Hin.
  - simpl in Hnd. apply NoDup_cons in Hnd as [Hk0 Hnd]. simpl.
    apply elem_of_cons in Hin as [[= -> ->]|Hin].
    + by rewrite String.eqb_refl.
    + destruct (String.eqb k0 k) eqn:Hk; [|by apply IH].
      apply String.eqb_eq in Hk as ->. exfalso. apply Hk0.
      apply list_elem_of_fmap. by exists (k, v).
Qed.

Lemma ex_flat_class_members_ok :
  forall k v,
    (k, v) ∈ [("__module__", VStr "m"); ("first", VRef 0); ("run", VRef 1)] ->
    member_ok (w_objects ex_flat_class_world) v.
Proof.
  intros k v Hin.
  repeat (apply elem_of_cons in Hin as [[= -> ->]|Hin];
          [simpl; eauto|]).
  by apply elem_of_nil in Hin.
Qed.

Lemma wrap_class_wraps_members_witness :
  exists w' c',
    hot_restart_wrap_class 2 ex_flat_class_world = Some (Ok tt, w')
    /\ members_wrapped 2
         [("__module__", VStr "m"); ("first", VRef 0); ("run", VRef 1)]
         ex_flat_class_world
         (PyObj KClass
                [("__module__", VStr "m"); ("first", VRef 0); ("run", VRef 1)]
                (ModuleFile "/m.py") None)
         w' c'.
Proof.
  apply (wrap_class_wraps_members ex_flat_class_world 2 _ eq_refl eq_refl).
  - apply (bool_decide_unpack
             (NoDup (map fst [("__module__", VStr "m"); ("first", VRef 0);
                              ("run", VRef 1)]))).
    vm_compute. reflexivity.
  - exact ex_flat_class_members_ok.
Defined.

End ClassExtras.

(** ** wrap_module *)

Section ModuleExtras.

Import HotRestart WrapModule.

Lemma bind_inv {A B} (m : M A) (k : A -> M B) w r w' :
  bind m k w = Some (r, w') ->
  (exists a w1, m w = Some (Ok a, w1) /\ k a w1 = Some (r, w'))
  \/ (exists e, m w = Some (Raise e, w') /\ r = Raise e).
Proof.
  unfold bind. destruct (m w) as [[[a|e] w1]|]; [| |done].
  - intros Hk. left. eauto.
  - intros [= <- <-]. right. eauto.
Qed.

Lemma evolves_refl w : evolves w w.
Proof. intros a o Ha. eauto. Qed.

Lemma evolves_trans w1 w2 w3 : evolves w1 w2 -> evolves w2 w3 -> evolves w1 w3.
Proof.
  intros H12 H23 a o Ha.
  destruct (H12 a o Ha) as (o2 & Ha2 & Hc2 & Hs2).
  destruct (H23 a o2 Ha2) as (o3 & Ha3 & Hc3 & Hs3).
  exists o3. split; [done|]. split; [congruence|].
  intros Hnc. rewrite <- (Hs2 Hnc). apply Hs3. congruence.
Qed.

Lemma extends_evolves w w' :
  (forall a o, w_objects w !! a = Some o -> w_objects w' !! a = Some o) ->
  evolves w w'.
Proof. intros Hext a o Ha. exists o. eauto. Qed.

(** Whatever it returns or raises, [hot_restart_wrap] leaves every
    existing object as it was. *)
Lemma hot_restart_wrap_preserves func pe pki w r w' :
  hot_restart_wrap func pe pki w = Some (r, w') ->
  forall a o, w_objects w !! a = Some o -> w_objects w' !! a = Some o.
Proof.
  destruct func as [f|].
  - destruct (w_objects w !! f) as [fo|] eqn:Hf.
    + destruct (is_class fo) eqn:Hc.
      * rewrite (wrap_rejects_class _ _ _ _ _ Hf Hc). by intros [= _ <-].
      * destruct (marked fo) eqn:Hm.
        -- rewrite (wrap_marked _ _ _ _ _ Hf Hc Hm). by intros [= _ <-].
        -- destruct (decide (ob_module fo = NoModule)) as [Hmod|Hmod].
           ++ rewrite (wrap_no_module _ _ _ _ _ Hf Hc Hm Hmod).
              by intros [= _ <-].
           ++ rewrite (wrap_unmarked _ _ _ _ _ Hf Hc Hm Hmod).
              intros [= _ <-].
              intros a o Ha. simpl. by apply lookup_app_l_Some.
    + cbv beta iota delta [hot_restart_wrap bind isclass deref ret].
      by rewrite Hf.
  - intros [= _ <-] a o Ha. simpl. by apply lookup_app_l_Some.
Qed.

Lemma setattr_inv a k v w r w' :
  setattr a k v w = Some (r, w') ->
  exists o, w_objects w !! a = Some o
            /\ w_objects w'
               = <[a := PyObj (ob_kind o) (dict_set (ob_dict o) k v)
                               (ob_module o) (ob_closure o)]>
                   (w_objects w).
Proof.
  destruct (w_objects w !! a) as [o|] eqn:Ha.
  - rewrite (setattr_eq _ _ _ _ _ Ha). intros [= _ <-]. eauto.
  - cbv beta iota delta [setattr bind deref]. by rewrite Ha.
Qed.

(** Assigning an attribute of a class changes that class only. *)
Lemma setattr_class_evolves cls k v w r w' c :
  w_objects w !! cls = Some c -> is_class c = true ->
  setattr cls k v w = Some (r, w') -> evolves w w'.
Proof.
  intros Hcls Hcc Hset.
  destruct (setattr_inv _ _ _ _ _ _ Hset) as (o & Ho & Hobjs).
  rewrite Hcls in Ho. injection Ho as <-.
  intros a o Ha. rewrite Hobjs.
  destruct (decide (a = cls)) as [->|Hne].
  - rewrite Hcls in Ha. injection Ha as <-.
    eexists. split.
    + apply list_lookup_insert_eq. by eapply lookup_lt_Some.
    + split; [done|]. congruence.
  - exists o. by rewrite list_lookup_insert_ne.
Qed.

Lemma evolves_class w w' cls c :
  evolves w w' -> w_objects w !! cls = Some c -> is_class c = true ->
  exists c', w_objects w' !! cls = Some c' /\ is_class c' = true.
Proof.
  intros Hev Hcls Hcc.
  destruct (Hev _ _ Hcls) as (c' & Hc' & Hk & _). exists c'.
  split; [done|congruence].
Qed.

Lemma callable_inv v w r w' :
  callable v w = Some (r, w') -> w' = w /\ exists c, r = Ok c.
Proof.
  destruct v as [| | | |a]; simpl; try (intros [= <- <-]; eauto).
  unfold bind, deref. destruct (w_objects w !! a); [|done].
  intros [= <- <-]. eauto.
Qed.

(** Whatever it returns or raises, the loop of [hot_restart_wrap_class]
    changes the class only and allocates. *)
Lemma wrap_items_evolves cls items :
  forall w c r w',
    w_objects w !! cls = Some c -> is_class c = true ->
    wrap_items cls items w = Some (r, w') -> evolves w w'.
Proof.
  induction items as [|[k v] rest IH]; intros w c r w' Hcls Hcc Hrun.
  - injection Hrun as _ <-. apply evolves_refl.
  - cbn [wrap_items] in Hrun.
    apply bind_inv in Hrun as [(cb & w0 & Hcall & Hrun)|(e & Hcall & _)].
    2:{ apply callable_inv in Hcall as [_ [? ?]]. done. }
    apply callable_inv in Hcall as [-> _].
    apply bind_inv in Hrun as [([] & w1 & Hstep & Hrun)|(e & Hstep & _)].
    + assert (evolves w w1) as Hev1.
      { destruct cb; [|injection Hstep as <-; apply evolves_refl].
        destruct v as [| | | |a];
          try (injection Hstep as <-; apply evolves_refl).
        apply bind_inv in Hstep
          as [(wv & w2 & Hwrap & Hset)|(e & Hwrap & ?)]; [|done].
        pose proof (hot_restart_wrap_preserves _ _ _ _ _ _ Hwrap) as Hext.
        eapply evolves_trans; [by apply extends_evolves|].
        eapply setattr_class_evolves; [by apply Hext|done|exact Hset]. }
      destruct (evolves_class _ _ _ _ Hev1 Hcls Hcc) as (c1 & Hcls1 & Hcc1).
      eapply evolves_trans; [exact Hev1|]. by eapply IH.
    + destruct cb; [|done].
      destruct v as [| | | |a]; try done.
      apply bind_inv in Hstep
        as [(wv & w2 & Hwrap & Hset)|(e' & Hwrap & ?)].
      * pose proof (hot_restart_wrap_preserves _ _ _ _ _ _ Hwrap) as Hext.
        eapply evolves_trans; [by apply extends_evolves|].
        eapply setattr_class_evolves; [by apply Hext|done|exact Hset].
      * apply extends_evolves.
        by eapply hot_restart_wrap_preserves.
Qed.

Lemma hot_restart_wrap_class_evolves cls w c r w' :
  w_objects w !! cls = Some c -> is_class c = true ->
  hot_restart_wrap_class cls w = Some (r, w') -> evolves w w'.
Proof.
  intros Hcls Hcc. unfold hot_restart_wrap_class.
  rewrite (bind_ok _ _ _ _ _ (deref_eq _ _ _ Hcls)).
  by eapply wrap_items_evolves.
Qed.

Lemma evolves_length w w' :
  evolves w w' -> (length (w_objects w) <= length (w_objects w'))%nat.
Proof.
  intros Hev. destruct (w_objects w) as [|o l] eqn:Hobjs using rev_ind.
  - simpl. lia.
  - clear IHl.
    destruct (Hev (length l) o) as (o' & Ho' & _).
    { rewrite Hobjs. by rewrite lookup_app_r, Nat.sub_diag. }
    apply lookup_lt_Some in Ho'. rewrite length_app. simpl. lia.
Qed.

(** Whether an entry is rebound is decided by objects that the loop does
    not change. *)
Lemma eligible_evolves E name w w1 v :
  evolves w w1 ->
  (forall a, v = VRef a -> is_Some (w_objects w !! a)) ->
  eligible E name (w_objects w1) v = eligible E name (w_objects w) v.
Proof.
  intros Hev Hex. destruct v as [| | | |a]; try reflexivity.
  destruct (Hex a eq_refl) as [o Ho].
  destruct (Hev a o Ho) as (o' & Ho' & Hk & Hsame).
  unfold eligible. rewrite Ho, Ho'.
  destruct (is_class o) eqn:Hc.
  - rewrite Hk. simpl. rewrite ?andb_false_r. reflexivity.
  - by rewrite (Hsame eq_refl), Hc.
Qed.

(** One entry of the first loop. *)
Lemma wrap_entry_spec E name k v out w r w' :
  (forall a, v = VRef a -> is_Some (w_objects w !! a)) ->
  wrap_entry E name k v out w = Some (r, w') ->
  evolves w w'
  /\ forall out', r = Ok out' ->
       if eligible E name (w_objects w) v
       then exists a fo,
              v = VRef a /\ w_objects w !! a = Some fo
              /\ out' = dict_set out k (VRef (length (w_objects w)))
              /\ w_objects w'
                 = w_objects w
                   ++ [new_wrapper w a fo default_propagated_exceptions
                         default_propagate_keyboard_interrupt]
       else out' = out.
Proof.
  intros Hex Hrun.
  destruct v as [| | | |a];
    try (cbn in Hrun; injection Hrun as <- <-;
         split; [apply evolves_refl|]; by intros out' [= <-]).
  destruct (Hex a eq_refl) as [fo Hfo].
  unfold wrap_entry in Hrun. cbn [getattr_value isclass_value] in Hrun.
  unfold eligible. rewrite Hfo.
  remember (same_module E (VRef a) name) as sm eqn:Hsm. clear Hsm.
  rewrite (bind_ok _ _ _ _ _ (getattr_eq _ _ _ _ _ Hfo)) in Hrun.
  destruct (truthy (default (VBool false)
                      (dict_get (ob_dict fo) HOT_RESTART_NO_WRAP))) eqn:Hnw.
  { injection Hrun as <- <-. split; [apply evolves_refl|].
    by intros out' [= <-]. }
  rewrite (bind_ok _ _ _ _ _ (getattr_eq _ _ _ _ _ Hfo)) in Hrun.
  fold (marked fo) in Hrun.
  destruct (marked fo) eqn:Hm.
  { injection Hrun as <- <-. split; [apply evolves_refl|].
    by intros out' [= <-]. }
  rewrite (bind_ok _ _ _ _ _ (isclass_eq _ _ _ Hfo)) in Hrun.
  destruct (is_class fo) eqn:Hc; simpl.
  { destruct sm.
    - apply bind_inv in Hrun as [([] & w1 & Hcls & Hret)|(e & Hcls & ->)].
      + injection Hret as <- <-. split; [|by intros out' [= <-]].
        by eapply hot_restart_wrap_class_evolves.
      + split; [|done]. by eapply hot_restart_wrap_class_evolves.
    - injection Hrun as <- <-. split; [apply evolves_refl|].
      by intros out' [= <-]. }
  assert (callable (VRef a) w = Some (Ok (callable_kind (ob_kind fo)), w))
    as Hcall.
  { unfold callable. by rewrite (bind_ok _ _ _ _ _ (deref_eq _ _ _ Hfo)). }
  rewrite (bind_ok _ _ _ _ _ Hcall) in Hrun.
  destruct (callable_kind (ob_kind fo)); simpl.
  2:{ injection Hrun as <- <-. split; [apply evolves_refl|].
      by intros out' [= <-]. }
  destruct sm; simpl.
  2:{ injection Hrun as <- <-. split; [apply evolves_refl|].
      by intros out' [= <-]. }
  destruct (decide (ob_module fo = NoModule)) as [Hmod|Hmod].
  { rewrite (bind_raise _ _ _ _ _ (wrap_no_module _ _ _ _ _ Hfo Hc Hm Hmod))
      in Hrun.
    injection Hrun as <- <-. split; [apply evolves_refl|done]. }
  rewrite (bind_ok _ _ _ _ _ (wrap_unmarked _ _ _ _ _ Hfo Hc Hm Hmod)) in Hrun.
  injection Hrun as <- <-. split.
  - apply extends_evolves. intros b ob Hb. simpl.
    by apply lookup_app_l_Some.
  - intros out' [= <-]. exists a, fo. done.
Qed.

Lemma wrap_entries_cons E name k v rest out :
  wrap_entries E name ((k, v) :: rest) out
  = bind (wrap_entry E name k v out) (wrap_entries E name rest).
Proof. reflexivity. Qed.

Lemma dict_set_keys_new d k v :
  k ∉ map fst d -> map fst (dict_set d k v) = map fst d ++ [k].
Proof.
  induction d as [|[k0 v0] d IH]; simpl; [done|].
  intros Hnot. apply not_elem_of_cons in Hnot as [Hne Hnot].
  rewrite (proj2 (String.eqb_neq k0 k)) by congruence.
  simpl. f_equal. by apply IH.
Qed.

Lemma dict_set_NoDup d k v :
  NoDup (map fst d) -> NoDup (map fst (dict_set d k v)).
Proof.
  intros Hnd. destruct (decide (k ∈ map fst d)) as [Hin|Hnot].
  - by rewrite dict_set_keys.
  - rewrite dict_set_keys_new by done.
    apply NoDup_app. split; [done|]. split.
    + intros x Hx Hxk. apply list_elem_of_singleton in Hxk as ->. done.
    + apply NoDup_singleton.
Qed.

(** The first loop as a whole. *)
Lemma wrap_entries_spec E name items :
  forall w out r w',
    NoDup (map fst items) ->
    (forall k a, (k, VRef a) ∈ items -> is_Some (w_objects w !! a)) ->
    wrap_entries E name items out w = Some (r, w') ->
    evolves w w'
    /\ forall out', r = Ok out' ->
         (NoDup (map fst out) -> NoDup (map fst out'))
         /\ (forall k, k ∉ map fst items ->
                       dict_get out' k = dict_get out k)
         /\ (forall k v, (k, v) ∈ items ->
               if eligible E name (w_objects w) v
               then exists v', dict_get out' k = Some v'
                               /\ rebound (w_objects w') v v'
                               /\ forall x, v' = VRef x ->
                                    (length (w_objects w) <= x)%nat
               else dict_get out' k = dict_get out k).
Proof.
  induction items as [|[k0 v0] rest IH]; intros w out r w' Hnd Hex Hrun.
  - injection Hrun as <- <-. split; [apply evolves_refl|].
    intros out' [= <-]. repeat split; try done.
    intros k v Hin. by apply elem_of_nil in Hin.
  - simpl in Hnd. apply NoDup_cons in Hnd as [Hk0 Hnd].
    rewrite wrap_entries_cons in Hrun.
    assert (forall a, v0 = VRef a -> is_Some (w_objects w !! a)) as Hex0.
    { intros a ->. apply (Hex k0). left. }
    apply bind_inv in Hrun as [(out1 & w1 & Hstep & Hrun)|(e & Hstep & ->)].
    2:{ split; [|done]. by eapply wrap_entry_spec. }
    destruct (wrap_entry_spec _ _ _ _ _ _ _ _ Hex0 Hstep) as [Hev1 Hout1].
    specialize (Hout1 out1 eq_refl).
    assert (forall k a, (k, VRef a) ∈ rest -> is_Some (w_objects w1 !! a))
      as Hex1.
    { intros k a Hin. destruct (Hex k a) as [o Ho]; [by right|].
      destruct (Hev1 a o Ho) as (o' & Ho' & _). eauto. }
    destruct (IH w1 out1 r w' Hnd Hex1 Hrun) as [Hev2 Hrest].
    split; [by eapply evolves_trans|].
    intros out' ->. destruct (Hrest out' eq_refl) as (Hnd' & Hother & Hitems).
    assert (forall k, k <> k0 -> dict_get out1 k = dict_get out k) as Hout1k.
    { intros k Hk. destruct (eligible E name (w_objects w) v0).
      - destruct Hout1 as (a & fo & _ & _ & -> & _).
        by rewrite dict_get_set_ne.
      - by subst out1. }
    repeat split.
    + intros Hndo. apply Hnd'.
      destruct (eligible E name (w_objects w) v0).
      * destruct Hout1 as (a & fo & _ & _ & -> & _). by apply dict_set_NoDup.
      * by subst out1.
    + intros k Hk. apply not_elem_of_cons in Hk as [Hk Hkr].
      rewrite (Hother k Hkr). by apply Hout1k.
    + intros k v Hin. apply elem_of_cons in Hin as [[= -> ->]|Hin].
      * rewrite (Hother k0 Hk0).
        destruct (eligible E name (w_objects w) v0); [|by subst out1].
        destruct Hout1 as (a & fo & -> & Hfo & -> & Hobjs1).
        exists (VRef (length (w_objects w))).
        split; [apply dict_get_set|]. split.
        -- destruct (new_wrapper_marked w a fo default_propagated_exceptions
                       default_propagate_keyboard_interrupt) as [Hnm Hnc].
           destruct (Hev2 (length (w_objects w))
                       (new_wrapper w a fo default_propagated_exceptions
                          default_propagate_keyboard_interrupt))
             as (o' & Ho' & _ & Hsame).
           { rewrite Hobjs1. by rewrite lookup_app_r, Nat.sub_diag. }
           rewrite (Hsame Hnc) in Ho'.
           exists a, (length (w_objects w)). eexists.
           repeat split; try done.
           unfold new_wrapper. destruct (ob_kind fo); simpl; eauto.
        -- by intros x [= <-].
      * assert (k <> k0) as Hkne.
        { intros ->. apply Hk0. apply list_elem_of_fmap. by exists (k0, v). }
        specialize (Hitems k v Hin).
        rewrite (eligible_evolves E name w w1 v Hev1) in Hitems.
        2:{ intros a ->. apply (Hex k). by right. }
        destruct (eligible E name (w_objects w) v).
        -- destruct Hitems as (v' & Hget & Hreb & Hlen).
           exists v'. repeat split; try done.
           intros x Hx. pose proof (evolves_length _ _ Hev1).
           specialize (Hlen x Hx). lia.
        -- rewrite Hitems. by apply Hout1k.
Qed.

(** Whatever happens, the first loop changes classes only and
    allocates. *)
Lemma wrap_entry_evolves E name k v out w r w' :
  wrap_entry E name k v out w = Some (r, w') -> evolves w w'.
Proof.
  intros Hrun.
  destruct v as [| | | |a];
    try (by eapply wrap_entry_spec; [|exact Hrun]).
  destruct (w_objects w !! a) as [o|] eqn:Ha.
  - eapply wrap_entry_spec; [|exact Hrun].
    intros a' [= <-]. by rewrite Ha.
  - cbv beta iota delta [wrap_entry getattr_value getattr bind deref]
      in Hrun.
    by rewrite Ha in Hrun.
Qed.

Lemma wrap_entries_evolves E name items :
  forall w out r w',
    wrap_entries E name items out w = Some (r, w') -> evolves w w'.
Proof.
  induction items as [|[k v] rest IH]; intros w out r w' Hrun.
  - injection Hrun as <- <-. apply evolves_refl.
  - rewrite wrap_entries_cons in Hrun.
    apply bind_inv in Hrun as [(out1 & w1 & Hstep & Hrun)|(e & Hstep & ->)].
    + eapply evolves_trans; [by eapply wrap_entry_evolves|by eapply IH].
    + by eapply wrap_entry_evolves.
Qed.

(** The second loop is a [dict.update] of the module's dictionary. *)
Lemma assign_entries_eq m out :
  forall w mo,
    w_objects w !! m = Some mo ->
    assign_entries m out w
    = Some (Ok tt,
            World (<[m := PyObj (ob_kind mo) (dict_update (ob_dict mo) out)
                                 (ob_module mo) (ob_closure mo)]>
                     (w_objects w))
                  (w_tb_heap w) (w_events w) (w_EXIT_THIS_FRAME w)).
Proof.
  induction out as [|[k v] out IH]; intros w mo Hm.
  - simpl. unfold ret. do 2 f_equal.
    destruct w as [objs h ev fl], mo as [kd d mf cl]. simpl in *.
    f_equal. symmetry. by apply list_insert_id.
  - cbn [assign_entries].
    rewrite (bind_ok _ _ _ _ _ (setattr_eq _ _ _ _ _ Hm)).
    erewrite IH.
    2:{ simpl. apply list_lookup_insert_eq. by eapply lookup_lt_Some. }
    simpl. by rewrite list_insert_insert_eq.
Qed.

Lemma dict_update_keys out :
  forall d,
    (forall k, k ∈ map fst out -> k ∈ map fst d) ->
    map fst (dict_update d out) = map fst d.
Proof.
  unfold dict_update.
  induction out as [|[k v] out IH]; intros d Hsub; [done|]. simpl.
  rewrite IH.
  - apply dict_set_keys. apply Hsub. left.
  - intros k' Hk'. rewrite dict_set_keys by (apply Hsub; left).
    apply Hsub. by right.
Qed.

Lemma dict_get_of_elem d k v :
  NoDup (map fst d) -> (k, v) ∈ d -> dict_get d k = Some v.
Proof.
  induction d as [|[k0 v0] d IH]; intros Hnd Hin.
  - by apply elem_of_nil in Hin.
  - simpl in Hnd. apply NoDup_cons in Hnd as [Hk0 Hnd]. simpl.
    apply elem_of_cons in Hin as [[= -> ->]|Hin].
    + by rewrite String.eqb_refl.
    + destruct (String.eqb k0 k) eqn:Hk; [|by apply IH].
      apply String.eqb_eq in Hk as ->. exfalso. apply Hk0.
      apply list_elem_of_fmap. by exists (k, v).
Qed.

Lemma dict_get_None_inv d k :
  dict_get d k = None -> k ∈ map fst d -> False.
Proof.
  induction d as [|[k0 v0] d IH]; simpl; intros Hget Hin.
  - by apply elem_of_nil in Hin.
  - destruct (String.eqb k0 k) eqn:Hk; [done|].
    apply elem_of_cons in Hin as [->|Hin]; [|by apply IH].
    by rewrite String.eqb_refl in Hk.
Qed.

(** X20.  When [wrap_module] raises -- for instance because a class of
    the module has a nested class -- the module's own bindings are as
    before: wrappers are assigned to the module only after the whole
    loop has succeeded. *)
Theorem wrap_module_failure_keeps_bindings E arg m name mo w e w' :
  resolve_module E arg w = Some (Ok (m, name), w) ->
  w_objects w !! m = Some mo -> is_class mo = false ->
  wrap_module E arg w = Some (Raise e, w') ->
  w_objects w' !! m = Some mo.
Proof.
  intros Hres Hm Hc Hrun. unfold wrap_module in Hrun.
  rewrite (bind_ok _ _ _ _ _ Hres) in Hrun. simpl in Hrun.
  rewrite (bind_ok _ _ _ _ _ (deref_eq _ _ _ Hm)) in Hrun.
  apply bind_inv in Hrun as [(out & w1 & Hloop & Hassign)|(e' & Hloop & _)].
  - pose proof (wrap_entries_evolves _ _ _ _ _ _ _ Hloop) as Hev.
    destruct (Hev m mo Hm) as (mo1 & Hm1 & _ & _).
    by rewrite (assign_entries_eq _ _ _ _ Hm1) in Hassign.
  - pose proof (wrap_entries_evolves _ _ _ _ _ _ _ Hloop) as Hev.
    destruct (Hev m mo Hm) as (mo1 & Hm1 & _ & Hsame).
    by rewrite <- (Hsame Hc).
Qed.

Lemma wrap_module_failure_keeps_bindings_witness :
  w_objects ex_nested_module_world_after !! 4 = Some ex_nested_module.
Proof.
  exact (wrap_module_failure_keeps_bindings ex_nested_env ArgNone 4 "m"
           ex_nested_module ex_nested_module_world ValueError
           ex_nested_module_world_after eq_refl eq_refl eq_refl eq_refl).
Defined.

(** X21.  When [wrap_module] returns, the module has the same names in
    the same order.  A name is rebound, to a new marked wrapper around its
    old value, exactly when that value is an object of this very module
    that is callable, is not a class, and carries neither the no-wrap nor
    the already-wrapped mark; every other name keeps its value. *)
Theorem wrap_module_rebinds E m mo name w w' :
  w_objects w !! m = Some mo -> is_class mo = false ->
  dict_get (ob_dict mo) "__name__" = Some (VStr name) ->
  NoDup (map fst (ob_dict mo)) ->
  (forall k a, (k, VRef a) ∈ ob_dict mo -> is_Some (w_objects w !! a)) ->
  wrap_module E (ArgModule m) w = Some (Ok tt, w') ->
  exists mo',
    w_objects w' !! m = Some mo'
    /\ map fst (ob_dict mo') = map fst (ob_dict mo)
    /\ forall k v, (k, v) ∈ ob_dict mo ->
         exists v', dict_get (ob_dict mo') k = Some v'
                    /\ if eligible E name (w_objects w) v
                       then rebound (w_objects w') v v'
                       else v' = v.
Proof.
  intros Hm Hc Hname Hnd Hex Hrun. unfold wrap_module in Hrun.
  assert (resolve_module E (ArgModule m) w = Some (Ok (m, name), w)) as Hres.
  { assert (module___name__ m w = Some (Ok name, w)) as Hn.
    { unfold module___name__.
      rewrite (bind_ok _ _ _ _ _ (deref_eq _ _ _ Hm)). by rewrite Hname. }
    unfold resolve_module. by rewrite (bind_ok _ _ _ _ _ Hn). }
  rewrite (bind_ok _ _ _ _ _ Hres) in Hrun. simpl in Hrun.
  rewrite (bind_ok _ _ _ _ _ (deref_eq _ _ _ Hm)) in Hrun.
  apply bind_inv in Hrun as [(out & w1 & Hloop & Hassign)|(e' & _ & ?)];
    [|done].
  destruct (wrap_entries_spec _ _ _ _ _ _ _ Hnd Hex Hloop) as [Hev Hout].
  destruct (Hout out eq_refl) as (Hndo & Hother & Hitems).
  specialize (Hndo (NoDup_nil_2)).
  destruct (Hev m mo Hm) as (mo1 & Hm1 & _ & Hsame).
  rewrite (Hsame Hc) in Hm1. clear Hsame mo1.
  rewrite (assign_entries_eq _ _ _ _ Hm1) in Hassign.
  injection Hassign as <-.
  assert (m < length (w_objects w1))%nat as Hlt by (by eapply lookup_lt_Some).
  eexists. split; [by apply list_lookup_insert_eq|]. simpl.
  split.
  - apply dict_update_keys. intros k Hk.
    destruct (decide (k ∈ map fst (ob_dict mo))) as [|Hnot]; [done|].
    exfalso. specialize (Hother k Hnot). simpl in Hother.
    revert Hk. apply dict_get_None_inv. exact Hother.
  - intros k v Hin. rewrite (dict_get_update _ Hndo).
    specialize (Hitems k v Hin).
    destruct (eligible E name (w_objects w) v).
    + destruct Hitems as (v' & Hget & Hreb & Hlen).
      exists v'. rewrite Hget. split; [done|].
      destruct Hreb as (a & x & ox & -> & -> & Hx & Hmk & Hnc & Hcl).
      exists a, x, ox. repeat split; try done.
      rewrite list_lookup_insert_ne; [done|].
      specialize (Hlen x eq_refl).
      apply lookup_lt_Some in Hm. lia.
    + simpl in Hitems. rewrite Hitems.
      exists v. split; [|done]. by apply dict_get_of_elem.
Qed.

Lemma ex_module_refs_exist :
  forall k a,
    (k, VRef a) ∈ [("__name__", VStr "m"); ("f", VRef 0); ("g", VRef 1);
                   ("h", VRef 2); ("C", VRef 3); ("x", VInt 1)] ->
    is_Some (w_objects ex_module_world !! a).
Proof.
  intros k a Hin.
  repeat (apply elem_of_cons in Hin as [Heq|Hin];
          [first [discriminate Heq | injection Heq as -> ->; by eexists]|]).
  by apply elem_of_nil in Hin.
Qed.

Lemma wrap_module_rebinds_witness :
  exists mo',
    w_objects ex_module_world_after !! 4 = Some mo'
    /\ map fst (ob_dict mo')
       = ["__name__"; "f"; "g"; "h"; "C"; "x"]
    /\ forall k v,
         (k, v) ∈ [("__name__", VStr "m"); ("f", VRef 0); ("g", VRef 1);
                   ("h", VRef 2); ("C", VRef 3); ("x", VInt 1)] ->
         exists v', dict_get (ob_dict mo') k = Some v'
                    /\ if eligible ex_module_env "m"
                            (w_objects ex_module_world) v
                       then rebound (w_objects ex_module_world_after) v v'
                       else v' = v.
Proof.
  apply (wrap_module_rebinds ex_module_env 4 _ "m" ex_module_world
           ex_module_world_after eq_refl eq_refl eq_refl).
  - apply (bool_decide_unpack
             (NoDup ["__name__"; "f"; "g"; "h"; "C"; "x"])).
    vm_compute. reflexivity.
  - exact ex_module_refs_exist.
  - reflexivity.
Defined.

End ModuleExtras.
